(** * Resume analysis system: text extraction, credential rotation, batch loop

    A shallow embedding of [src/app.py] (function [extract_text_from_file]
    and the "Analyze All Resumes" loop) and of
    [src/utils/api_key_manager.py] (class [APIKeyManager]), with the
    properties the specification states about them.

    Python values are embedded as follows.
    - [str] is a list of Unicode code points ([pystr]); literals of the
      source are written with [lit] when they are ASCII and with explicit
      code points for the symbols the log messages start with.
    - A call that may raise is a [result]: [Ret v] for a normal return,
      [Raise e] for an exception, which carries its class name and [str(e)].
      Every exception of the model is an instance of [Exception], so a bare
      [except:] and [except Exception] catch the same ones.
    - Stateful code is a function from the state before to a [result] and
      the state after ([Py]): a raise keeps the mutations made before it.

    The embedding comes first, with the concrete inputs the examples run
    on; the properties follow it. *)

From Stdlib Require Import ZArith NArith String Ascii List Lia Bool.
From Stdlib.Strings Require Import Byte.
From stdpp Require Import base option list gmap strings pretty sorting.

(** ** Python strings *)

Abbreviation pystr := (list N).

Definition lit (s : string) : pystr := N_of_ascii <$> list_ascii_of_string s.

(** [str(n)] and [f"{n}"] for a non-negative [int]. *)
Definition str_of_nat (n : nat) : pystr := lit (pretty n).

(** [ch.isspace()]: the code points CPython's [_PyUnicode_IsWhitespace]
    accepts. *)
Definition isspace (c : N) : bool :=
  ((9 <=? c) && (c <=? 13) || (28 <=? c) && (c <=? 32)
   || (c =? 133) || (c =? 160) || (c =? 5760)
   || (8192 <=? c) && (c <=? 8202)
   || (c =? 8232) || (c =? 8233) || (c =? 8239) || (c =? 8287)
   || (c =? 12288))%N.

Fixpoint lstrip (s : pystr) : pystr :=
  match s with
  | c :: s' => if isspace c then lstrip s' else s
  | [] => []
  end.

Definition rstrip (s : pystr) : pystr := reverse (lstrip (reverse s)).

(** [s.strip()] *)
Definition strip (s : pystr) : pystr := rstrip (lstrip s).

(** Truth value of a [str]: non-empty. *)
Definition truthy (s : pystr) : bool :=
  match s with [] => false | _ :: _ => true end.

(** [sep.join(parts)] *)
Fixpoint join (sep : pystr) (parts : list pystr) : pystr :=
  match parts with
  | [] => []
  | [p] => p
  | p :: rest => p ++ sep ++ join sep rest
  end.

(** [s.startswith(p)] *)
Fixpoint is_prefix (p s : pystr) : bool :=
  match p, s with
  | [], _ => true
  | a :: p', b :: s' => (a =? b)%N && is_prefix p' s'
  | _ :: _, [] => false
  end.

(** [needle in s] for two strings. *)
Fixpoint contains (needle s : pystr) : bool :=
  is_prefix needle s ||
  match s with
  | [] => false
  | _ :: s' => contains needle s'
  end.

(** [s.endswith(suffix)] *)
Definition endswith (s suffix : pystr) : bool :=
  is_prefix (reverse suffix) (reverse s).

(** [a == b] on strings. *)
Definition str_eqb (a b : pystr) : bool := bool_decide (a = b).

(** ** Exceptions and results *)

Record exn := Exn { exn_class : string; exn_str : pystr }.

Inductive result (A : Type) : Type :=
| Ret (a : A)
| Raise (e : exn).
Arguments Ret {A} a.
Arguments Raise {A} e.

(** [lst[i]] on a list, for [i >= 0]. *)
Definition getitem {A} (l : list A) (i : nat) : result A :=
  match l !! i with
  | Some x => Ret x
  | None => Raise (Exn "IndexError" (lit "list index out of range"))
  end.

(** [try: r  except Exception as e: h e] for a computation without state. *)
Definition catch {A} (r : result A) (h : exn -> result A) : result A :=
  match r with
  | Ret a => Ret a
  | Raise e => h e
  end.

#[global] Instance result_ret : MRet result := @Ret.
#[global] Instance result_bind : MBind result :=
  fun A B k r => match r with Ret a => k a | Raise e => Raise e end.

(** ** Programs over a mutable state *)

Section PyMonad.
Context {S : Type}.

Definition Py (A : Type) : Type := S -> result A * S.

Definition ret {A} (a : A) : Py A := fun s => (Ret a, s).

Definition raise {A} (e : exn) : Py A := fun s => (Raise e, s).

Definition bind {A B} (m : Py A) (k : A -> Py B) : Py B :=
  fun s =>
    match m s with
    | (Ret a, s') => k a s'
    | (Raise e, s') => (Raise e, s')
    end.

Definition get : Py S := fun s => (Ret s, s).

Definition modify (f : S -> S) : Py unit := fun s => (Ret tt, f s).

(** [except cls:] catches the instances of [cls] and of its subclasses;
    of the classes that occur here only [ModuleNotFoundError] has a base
    other than [Exception] that a handler names. *)
Definition isinstance (e : exn) (cls : string) : bool :=
  (String.eqb cls "Exception" || String.eqb (exn_class e) cls
   || String.eqb (exn_class e) "ModuleNotFoundError"
      && String.eqb cls "ImportError")%bool.

(** [try: m  except cls as e: h e] *)
Definition try_except_cls {A} (m : Py A) (cls : string) (h : exn -> Py A)
  : Py A :=
  fun s =>
    match m s with
    | (Ret a, s') => (Ret a, s')
    | (Raise e, s') => if isinstance e cls then h e s' else (Raise e, s')
    end.

(** [for x in xs: body x] *)
Fixpoint for_each {A} (xs : list A) (body : A -> Py unit) : Py unit :=
  match xs with
  | [] => ret tt
  | x :: xs' => bind (body x) (fun _ => for_each xs' body)
  end.

(** A pure computation that may raise, run inside a program. *)
Definition lift {A} (r : result A) : Py A := fun s => (r, s).
End PyMonad.
Arguments Py : clear implicits.

(** The programs are written with stdpp's monad notations
    ([x ← m; k] and [m;; k]). *)
#[global] Instance Py_ret {S} : MRet (Py S) := @ret S.
#[global] Instance Py_bind {S} : MBind (Py S) := fun A B k m => bind m k.

(** ** Logging *)

Inductive level := INFO | WARNING | ERROR.

Record log_record := Log { log_level : level; log_msg : pystr }.

(** A program that returns normally from every state. *)
Definition returns {S A} (m : Py S A) : Prop :=
  forall s, exists a s', m s = (Ret a, s').

(** * [src/utils/api_key_manager.py] *)

Module api_key_manager.

(** What [__init__] reads from outside: whether [streamlit] can be imported
    and what [st.secrets] is, and the process environment ([os.getenv]),
    which [load_dotenv()] has filled at import time. *)
Inductive streamlit :=
| NotInstalled                       (* [import streamlit] raises *)
| NoSecretsAttribute                 (* [hasattr(st, 'secrets')] is False *)
| SecretsUnreadable (e : exn)        (* [len(st.secrets)] raises [e] *)
| Secrets (m : gmap pystr pystr).    (* the mapping [st.secrets] *)

Record environment := {
  st : streamlit;
  environ : gmap pystr pystr
}.

(** [os.getenv(name)]: [None] when the variable is not set. *)
Definition getenv (env : environment) (name : pystr) : option pystr :=
  environ env !! name.

(** [st.secrets[name]] *)
Definition secrets_getitem (m : gmap pystr pystr) (name : pystr)
  : result pystr :=
  match m !! name with
  | Some v => Ret v
  | None => Raise (Exn "KeyError" (lit "'" ++ name ++ lit "'"))
  end.

(** The object and the module's logger. *)
Record APIKeyManager := {
  api_keys : list pystr;
  current_index : nat
}.

Record heap := {
  self : APIKeyManager;
  logger : list log_record
}.

Definition log (l : level) (msg : pystr) : Py heap unit :=
  modify (fun h => {| self := self h; logger := logger h ++ [Log l msg] |}).

Definition append_key (k : pystr) : Py heap unit :=
  modify (fun h =>
    {| self := {| api_keys := api_keys (self h) ++ [k];
                  current_index := current_index (self h) |};
       logger := logger h |}).

Definition set_api_keys (ks : list pystr) : Py heap unit :=
  modify (fun h =>
    {| self := {| api_keys := ks; current_index := current_index (self h) |};
       logger := logger h |}).

Definition set_current_index (i : nat) : Py heap unit :=
  modify (fun h =>
    {| self := {| api_keys := api_keys (self h); current_index := i |};
       logger := logger h |}).

Definition no_keys (h : heap) : bool :=
  match api_keys (self h) with [] => true | _ => false end.

Definition placeholder : pystr := lit "your_first_api_key_here".

(** [f"GROQ_API_KEY_{i}"] *)
Definition key_name (i : nat) : pystr := lit "GROQ_API_KEY_" ++ str_of_nat i.

(** The symbols the messages start with. *)
Definition magnifier : pystr := [128269%N].
Definition check_mark : pystr := [9989%N].
Definition warning_sign : pystr := [9888%N; 65039%N].
Definition party : pystr := [127881%N].
Definition cross_mark : pystr := [10060%N].
Definition arrows : pystr := [128260%N].
Definition right_arrow : pystr := [8594%N].

(** Lines 20-45: the Streamlit secrets. *)
Definition load_from_secrets (env : environment) : Py heap unit :=
  try_except_cls
    (try_except_cls
       (match st env with
        | NotInstalled =>
            raise (Exn "ModuleNotFoundError"
                       (lit "No module named 'streamlit'"))
        | NoSecretsAttribute =>
            log INFO
              (lit "Streamlit secrets not available, using environment variables")
        | SecretsUnreadable e => raise e
        | Secrets m =>
            if bool_decide (0 < size m) then
              log INFO (magnifier ++ lit " Checking Streamlit secrets for API keys...");;
              for_each (seq 1 9) (fun i =>
                let key_name := key_name i in
                try_except_cls
                  (key ← lift (secrets_getitem m key_name);
                   if truthy key && negb (str_eqb key placeholder) then
                     append_key key;;
                     log INFO (check_mark ++ lit " Loaded " ++ key_name
                               ++ lit " from Streamlit secrets")
                   else mret tt)
                  "KeyError" (fun _ => mret tt));;
              h ← get;
              if no_keys h then
                log WARNING (warning_sign
                             ++ lit " No API keys found in Streamlit secrets")
              else mret tt
            else
              log INFO
                (lit "Streamlit secrets not available, using environment variables")
        end)
       "ImportError"
       (fun _ => log INFO (lit "Streamlit not imported, using environment variables")))
    "Exception"
    (fun e => log WARNING (lit "Error accessing Streamlit secrets: " ++ exn_str e)).

(** Lines 47-54: the numbered environment variables. *)
Definition load_from_environ (env : environment) : Py heap unit :=
  h ← get;
  if no_keys h then
    log INFO (magnifier ++ lit " Checking environment variables for API keys...");;
    for_each (seq 1 9) (fun i =>
      match getenv env (key_name i) with
      | Some key =>
          if truthy key then
            append_key key;;
            log INFO (check_mark ++ lit " Loaded API key #" ++ str_of_nat i
                      ++ lit " from environment")
          else mret tt
      | None => mret tt
      end)
  else mret tt.

(** Lines 56-61: the single key. *)
Definition load_single_key (env : environment) : Py heap unit :=
  h ← get;
  if no_keys h then
    match getenv env (lit "GROQ_API_KEY") with
    | Some single_key =>
        if truthy single_key then
          append_key single_key;;
          log INFO (check_mark ++ lit " Loaded single API key from GROQ_API_KEY")
        else mret tt
    | None => mret tt
    end
  else mret tt.

Definition __init__ (env : environment) : Py heap unit :=
  set_api_keys [];;
  load_from_secrets env;;
  load_from_environ env;;
  load_single_key env;;
  set_current_index 0;;
  h ← get;
  if negb (no_keys h) then
    log INFO (party ++ lit " Successfully loaded "
              ++ str_of_nat (length (api_keys (self h)))
              ++ lit " API key(s) for rotation")
  else
    log ERROR (cross_mark ++ lit " NO API KEYS FOUND!");;
    log ERROR (lit "For Streamlit Cloud: Add GROQ_API_KEY_1, GROQ_API_KEY_2, GROQ_API_KEY_3 in Settings "
               ++ right_arrow ++ lit " Secrets");;
    log ERROR (lit "For local: Add them to .env file").

(** [APIKeyManager()]: a new object, initialised. *)
Definition blank : APIKeyManager := {| api_keys := []; current_index := 0 |}.

Definition new (env : environment) (logged : list log_record) : heap :=
  snd (__init__ env {| self := blank; logger := logged |}).

(** The exception of line 75 and the record of line 81. *)
Definition no_keys_configured : exn :=
  Exn "ValueError" (lit "No API keys configured!").

Definition only_one_key : pystr :=
  warning_sign ++ lit " Only 1 API key available, cannot rotate".

Definition get_current_key : Py heap pystr :=
  h ← get;
  if no_keys h then
    raise no_keys_configured
  else
    lift (getitem (api_keys (self h)) (current_index (self h))).

(** The value returned is [Some key], or [None] for Python's [None]. *)
Definition rotate_to_next : Py heap (option pystr) :=
  h ← get;
  if (length (api_keys (self h)) <=? 1)%nat then
    log WARNING only_one_key;;
    if negb (no_keys h) then
      k ← lift (getitem (api_keys (self h)) 0); mret (Some k)
    else mret None
  else
    let old_index := current_index (self h) in
    set_current_index ((current_index (self h) + 1) mod length (api_keys (self h)));;
    h' ← get;
    log INFO (arrows ++ lit " Rotating API key: Key #" ++ str_of_nat (old_index + 1)
              ++ lit " " ++ right_arrow ++ lit " Key #"
              ++ str_of_nat (current_index (self h') + 1));;
    k ← lift (getitem (api_keys (self h')) (current_index (self h')));
    mret (Some k).

Definition get_key_number : Py heap nat :=
  h ← get; mret (current_index (self h) + 1).

Definition get_total_keys : Py heap nat :=
  h ← get; mret (length (api_keys (self h))).

(** The state after [k] calls of [rotate_to_next]. *)
Fixpoint rotate_times (k : nat) (h : heap) : heap :=
  match k with
  | 0 => h
  | S k' => snd (rotate_to_next (rotate_times k' h))
  end.

(** What [k] successive calls of [rotate_to_next] return, in order. *)
Fixpoint rotate_returns (k : nat) (h : heap)
  : list (result (option pystr)) :=
  match k with
  | 0 => []
  | S k' =>
      fst (rotate_to_next h) :: rotate_returns k' (snd (rotate_to_next h))
  end.

(** ** The global instance

    The module keeps one manager in [_api_key_manager], [None] until the
    first call of [get_api_key_manager]; the call returns the object the
    variable holds, here its state at the time of the call. *)
Record module_state := {
  _api_key_manager : option APIKeyManager;
  module_logger : list log_record
}.

Definition get_api_key_manager (env : environment)
  : Py module_state APIKeyManager :=
  fun ms =>
    match _api_key_manager ms with
    | Some manager => (Ret manager, ms)
    | None =>
        match __init__ env {| self := blank; logger := module_logger ms |} with
        | (Ret _, h) =>
            (Ret (self h),
             {| _api_key_manager := Some (self h);
                module_logger := logger h |})
        | (Raise e, h) =>
            (Raise e,
             {| _api_key_manager := None; module_logger := logger h |})
        end
    end.

(** A method called on the global instance:
    [get_api_key_manager().method()]. The method works on the object the
    module holds, so what it changes is there for the next call. *)
Definition on_manager {A} (env : environment) (method : Py heap A)
  : Py module_state A :=
  bind (get_api_key_manager env) (fun manager ms =>
    match method {| self := manager; logger := module_logger ms |} with
    | (r, h) =>
        (r, {| _api_key_manager := Some (self h);
               module_logger := logger h |})
    end).

(** The module before the first call. *)
Definition fresh_module : module_state :=
  {| _api_key_manager := None; module_logger := [] |}.

(** ** The pool, read off the sources

    What each source yields, in the order of the numbers, and the first of
    the three that yields a key. *)
Definition from_secrets (env : environment) : list pystr :=
  match st env with
  | Secrets m =>
      if bool_decide (0 < size m) then
        omap (fun i =>
                key ← m !! key_name i;
                if truthy key && negb (str_eqb key placeholder)
                then Some key else None)
             (seq 1 9)
      else []
  | _ => []
  end.

Definition from_environ (env : environment) : list pystr :=
  omap (fun i =>
          key ← getenv env (key_name i);
          if truthy key then Some key else None)
       (seq 1 9).

Definition from_single_key (env : environment) : list pystr :=
  match getenv env (lit "GROQ_API_KEY") with
  | Some single_key => if truthy single_key then [single_key] else []
  | None => []
  end.

Definition first_source (env : environment) : list pystr :=
  match from_secrets env with
  | _ :: _ => from_secrets env
  | [] =>
      match from_environ env with
      | _ :: _ => from_environ env
      | [] => from_single_key env
      end
  end.

(** ** Concrete pools *)

(** A pool of three keys, read from the secrets. *)
Definition pool3 : environment :=
  {| st := Secrets {[ key_name 1 := lit "gsk_a"; key_name 2 := lit "gsk_b";
                      key_name 3 := lit "gsk_c" ]};
     environ := ∅ |}.

Definition one_key : heap :=
  {| self := {| api_keys := [lit "gsk_a"]; current_index := 0 |};
     logger := [] |}.

Definition empty_pool : heap := {| self := blank; logger := [] |}.

(** The placeholder of the configuration template, set as the first
    numbered variable of the environment, with no secrets at hand. *)
Definition placeholder_in_environ : environment :=
  {| st := NotInstalled; environ := {[ key_name 1 := placeholder ]} |}.

(** The same entry, and a real key, in the secrets. *)
Definition placeholder_in_secrets : environment :=
  {| st := Secrets {[ key_name 1 := placeholder; key_name 2 := lit "gsk_b" ]};
     environ := ∅ |}.

Definition placeholder_as_single_key : environment :=
  {| st := NotInstalled; environ := {[ lit "GROQ_API_KEY" := placeholder ]} |}.

End api_key_manager.

(** * [src/app.py] *)

Module app.

(** ** The uploaded file and the libraries that read it

    [type] and [name] are [None] when the attribute holds Python's [None];
    [getvalue] is the content, a list of bytes. *)
Record UploadedFile := {
  type : option pystr;
  name : option pystr;
  getvalue : list byte
}.

(** What a PDF library makes of a content: opening it raises, or it has
    pages, and [page.extract_text()] on each raises, returns [None] or
    returns a string. [PyPDF2.PdfReader] also raises ([NameError]) when the
    import at the top of the file failed. *)
Inductive page :=
| PageRaises (e : exn)
| PageText (t : option pystr).

Inductive pdf :=
| PdfRaises (e : exn)
| Pdf (pages : list page).

(** [(text, success, error)] *)
Definition extraction : Type := pystr * bool * option pystr.

(** [f"{v}"] for a value that is a string or [None]. *)
Definition fmt (v : option pystr) : pystr := default (lit "None") v.

(** [needle in v]: a [TypeError] when [v] is [None]. *)
Definition py_in (needle : pystr) (v : option pystr) : result bool :=
  match v with
  | Some s => Ret (contains needle s)
  | None =>
      Raise (Exn "TypeError" (lit "argument of type 'NoneType' is not iterable"))
  end.

(** [v.endswith(suffix)]: an [AttributeError] when [v] is [None]. *)
Definition py_endswith (v : option pystr) (suffix : pystr) : result bool :=
  match v with
  | Some s => Ret (endswith s suffix)
  | None =>
      Raise (Exn "AttributeError"
                 (lit "'NoneType' object has no attribute 'endswith'"))
  end.

Definition newline : pystr := [10%N].

(** [for page in pages: text += page.extract_text() or ""] *)
Fixpoint read_pages (pages : list page) (text : pystr) : result pystr :=
  match pages with
  | [] => Ret text
  | PageRaises e :: _ => Raise e
  | PageText t :: rest => read_pages rest (text ++ default [] t)
  end.

(** The body of one [try] block of the PDF branch: [Some r] when it
    returns [r], [None] when it reaches its end without returning. *)
Definition pdf_strategy (d : pdf) : result (option extraction) :=
  match d with
  | PdfRaises e => Raise e
  | Pdf pages =>
      text ← read_pages pages [];
      if truthy (strip text) then mret (Some (text, true, None))
      else mret None
  end.

(** [try: ... except: pass] *)
Definition except_pass (r : result (option extraction)) : option extraction :=
  match r with
  | Ret o => o
  | Raise _ => None
  end.

(** Line 89. *)
Definition no_pdf_text : extraction :=
  ([], false, Some (lit "Could not extract text from PDF")).

(** ** A strategy, read off the document

    A library reads a document to [text] when it opens it, none of its
    pages raises, [text] is the texts of all the pages in their order (a
    page without text adding nothing) and [text] is not blank. *)
Definition reads_every_page (d : pdf) (text : pystr) : Prop :=
  exists texts : list (option pystr),
    d = Pdf (PageText <$> texts) /\
    text = mjoin (default [] <$> texts) /\
    strip text <> [].

Section Extraction.
(** The libraries, as functions of the content ([uploaded_file.seek(0)]
    before the second one puts the stream back at its start). *)
Variable PdfReader : list byte -> pdf.
Variable pdfplumber_open : list byte -> pdf.
(** [[para.text for para in Document(f).paragraphs]] *)
Variable Document : list byte -> result (list pystr).
(** [bytes.decode("utf-8")] *)
Variable decode : list byte -> result pystr.

(** Lines 65-108, inside the outer [try]. *)
Definition extract_body (uploaded_file : UploadedFile) : result extraction :=
  if bool_decide (type uploaded_file = Some (lit "application/pdf")) then
    match except_pass (pdf_strategy (PdfReader (getvalue uploaded_file))) with
    | Some r => Ret r
    | None =>
        match except_pass
                (pdf_strategy (pdfplumber_open (getvalue uploaded_file))) with
        | Some r => Ret r
        | None => Ret no_pdf_text
        end
    end
  else
    is_docx ← (c ← py_in (lit "wordprocessingml") (type uploaded_file);
               if (c : bool) then mret true
               else py_endswith (name uploaded_file) (lit ".docx"));
    if (is_docx : bool) then
      catch
        (paragraphs ← Document (getvalue uploaded_file);
         let text := join newline paragraphs in
         if truthy (strip text) then mret (text, true, None)
         else mret ([], false, Some (lit "DOCX file is empty")))
        (fun e => Ret ([], false, Some (lit "Error reading DOCX: " ++ exn_str e)))
    else
      catch
        (text ← decode (getvalue uploaded_file);
         if truthy (strip text) then mret (text, true, None)
         else mret ([], false, Some (lit "Text file is empty")))
        (fun e => Ret ([], false,
                       Some (lit "Error reading text file: " ++ exn_str e))).

Definition extract_text_from_file (uploaded_file : UploadedFile)
  : result extraction :=
  catch (extract_body uploaded_file)
    (fun e => Ret ([], false, Some (lit "Unexpected error: " ++ exn_str e))).
End Extraction.

(** The reasons a failure of the extraction can carry (lines 89, 97, 99,
    106, 108 and 111). *)
Definition known_reason (reason : pystr) : Prop :=
  reason = lit "Could not extract text from PDF" \/
  reason = lit "DOCX file is empty" \/
  (exists e, reason = lit "Error reading DOCX: " ++ exn_str e) \/
  reason = lit "Text file is empty" \/
  (exists e, reason = lit "Error reading text file: " ++ exn_str e) \/
  (exists e, reason = lit "Unexpected error: " ++ exn_str e).

(** ** The "Analyze All Resumes" loop *)

(** The sidebar widgets the loop reads. *)
Record sidebar := {
  job_title : pystr;
  required_skills : pystr;
  min_experience : nat;
  max_experience : nat;
  nice_to_have : pystr;
  shortlist_threshold : Z
}.

(** The dictionary [job_requirements]. *)
Record job_requirements := {
  jr_job_title : pystr;
  jr_required_skills : pystr;
  jr_required_experience_years : pystr;
  jr_min_experience : nat;
  jr_max_experience : nat;
  jr_nice_to_have : pystr
}.

(** What [run_complete_analysis] gives back. The dictionaries are records
    of the keys the loop reads, a field being [None] when the key is
    absent; the values have the types of the specification's data model. *)
Record parsed_dict := {
  p_name : option pystr;
  p_email : option pystr;
  p_phone : option pystr;
  p_experience_years : option Z;
  p_skills : option (list pystr)
}.

Record analysis_dict := {
  a_confidence_score : option Z;
  a_key_strengths : option (list pystr);
  a_gaps : option (list pystr);
  a_recommendation : option pystr
}.

Record analysis_result := {
  r_status : option pystr;
  r_error : option pystr;
  r_parsed_resume : option parsed_dict;
  r_analysis : option analysis_dict
}.

(** The call raises, or returns [None] or a dictionary. *)
Inductive analysis_outcome :=
| AnalysisRaises (e : exn)
| AnalysisReturns (r : option analysis_result).

(** Truth value of the returned object: [None] and the empty dictionary
    are false. *)
Definition result_truthy (r : option analysis_result) : bool :=
  match r with
  | None => false
  | Some d =>
      bool_decide (is_Some (r_status d)) || bool_decide (is_Some (r_error d))
      || bool_decide (is_Some (r_parsed_resume d))
      || bool_decide (is_Some (r_analysis d))
  end.

(** [d[key]] on a field of a dictionary. *)
Definition dict_getitem {A} (key : string) (v : option A) : result A :=
  match v with
  | Some x => Ret x
  | None => Raise (Exn "KeyError" (lit "'" ++ lit key ++ lit "'"))
  end.

(** An entry of [st.session_state.all_results]. *)
Record candidate := {
  c_name : pystr;
  c_email : pystr;
  c_phone : pystr;
  c_experience_years : Z;
  c_skills : list pystr;
  c_confidence_score : Z;
  c_shortlisted : bool;
  c_key_strengths : list pystr;
  c_gaps : list pystr;
  c_recommendation : pystr;
  c_date : pystr;
  c_resume_file : option pystr
}.

(** [st.session_state.current_analysis] *)
Record current := {
  cur_parsed : parsed_dict;
  cur_analysis : analysis_dict;
  cur_resume_name : option pystr
}.

(** Calls on the page, in the order they are made. [progress n d] is
    [progress_bar.progress(n / d)]. *)
Inductive ui_event :=
| status_text (msg : pystr)
| status_success (msg : pystr)
| st_error (msg : pystr)
| st_info (msg : pystr)
| st_success (msg : pystr)
| st_spinner (msg : pystr)
| st_write (msg : pystr)
| progress (n d : nat).

(** The variables of the loop, the session state and the page. The calls
    on [logger] in this file only format values that were read before and
    are not part of the state. *)
Record state := {
  successful : nat;
  failed : nat;
  failed_files : list pystr;
  all_results : list candidate;
  current_analysis : option current;
  ui : list ui_event
}.

Definition emit (e : ui_event) : Py state unit :=
  modify (fun s =>
    {| successful := successful s; failed := failed s;
       failed_files := failed_files s; all_results := all_results s;
       current_analysis := current_analysis s; ui := ui s ++ [e] |}).

(** [failed += 1; failed_files.append(entry)] *)
Definition record_failure (entry : pystr) : Py state unit :=
  modify (fun s =>
    {| successful := successful s; failed := failed s + 1;
       failed_files := failed_files s ++ [entry];
       all_results := all_results s;
       current_analysis := current_analysis s; ui := ui s |}).

(** [all_results.append(c); current_analysis = cur; successful += 1] *)
Definition record_success (c : candidate) (cur : current) : Py state unit :=
  modify (fun s =>
    {| successful := successful s + 1; failed := failed s;
       failed_files := failed_files s;
       all_results := all_results s ++ [c];
       current_analysis := Some cur; ui := ui s |}).

(** [successful = 0; failed = 0; failed_files = []] *)
Definition reset_counters : Py state unit :=
  modify (fun s =>
    {| successful := 0; failed := 0; failed_files := [];
       all_results := all_results s;
       current_analysis := current_analysis s; ui := ui s |}).

Definition cross_mark : pystr := [10060%N].
Definition check_mark : pystr := [9989%N].
Definition robot : pystr := [129302%N].
Definition bar_chart : pystr := [128202%N].
Definition bullet : pystr := [8226%N].
Definition indent : pystr := lit "                ".

(** [enumerate(xs, start)] *)
Fixpoint enumerate_from {A} (start : nat) (xs : list A) : list (nat * A) :=
  match xs with
  | [] => []
  | x :: xs' => (start, x) :: enumerate_from (start + 1) xs'
  end.

Definition enumerate {A} (xs : list A) : list (nat * A) := enumerate_from 0 xs.

Section Batch.
Variable PdfReader : list byte -> pdf.
Variable pdfplumber_open : list byte -> pdf.
Variable Document : list byte -> result (list pystr).
Variable decode : list byte -> result pystr.
(** The analysis is a remote service and not a function of its arguments:
    its answer is also indexed by the position of the file in the batch,
    where the one call for that file is made. *)
Variable run_complete_analysis :
  nat -> pystr -> job_requirements -> analysis_outcome.
(** [datetime.now().strftime("%Y-%m-%d %H:%M")] when the file at a position
    is stored. *)
Variable now : nat -> pystr.
Variable widgets : sidebar.

Definition required_experience : pystr :=
  str_of_nat (min_experience widgets) ++ lit " to "
  ++ str_of_nat (max_experience widgets).

Definition the_job_requirements : job_requirements :=
  {| jr_job_title := job_title widgets;
     jr_required_skills := required_skills widgets;
     jr_required_experience_years := required_experience;
     jr_min_experience := min_experience widgets;
     jr_max_experience := max_experience widgets;
     jr_nice_to_have := nice_to_have widgets |}.

(** Line 217: [f"Processing {idx + 1}/{total_files}: {uploaded_file.name}"] *)
Definition processing (total_files idx : nat) (uploaded_file : UploadedFile)
  : pystr :=
  lit "Processing " ++ str_of_nat (idx + 1) ++ lit "/"
  ++ str_of_nat total_files ++ lit ": " ++ fmt (name uploaded_file).

(** Line 251: [result and result.get("status") == "success"] *)
Definition is_success (result : option analysis_result) : bool :=
  result_truthy result
  && bool_decide ((result ≫= r_status) = Some (lit "success")).

(** Line 291:
    [result.get('error', 'Unknown error') if result else 'No result returned'] *)
Definition error_msg (result : option analysis_result) : pystr :=
  if result_truthy result
  then default (lit "Unknown error") (result ≫= r_error)
  else lit "No result returned".

(** Lines 265-278: the dictionary appended to [all_results]. *)
Definition new_entry (parsed : parsed_dict) (analysis : analysis_dict)
    (date : pystr) (uploaded_file : UploadedFile) : candidate :=
  {| c_name := default (lit "Unknown") (p_name parsed);
     c_email := default [] (p_email parsed);
     c_phone := default (lit "N/A") (p_phone parsed);
     c_experience_years := default 0%Z (p_experience_years parsed);
     c_skills := default [] (p_skills parsed);
     c_confidence_score := default 0%Z (a_confidence_score analysis);
     c_shortlisted :=
       (default 0%Z (a_confidence_score analysis)
        >=? shortlist_threshold widgets)%Z;
     c_key_strengths := default [] (a_key_strengths analysis);
     c_gaps := default [] (a_gaps analysis);
     c_recommendation := default (lit "N/A") (a_recommendation analysis);
     c_date := date;
     c_resume_file := name uploaded_file |}.

(** Lines 216-298: one iteration. A branch that ends in [continue] ends
    here with the update of the progress bar it makes before. *)
Definition process_file (total_files idx : nat) (uploaded_file : UploadedFile)
  : Py state unit :=
  let fname := fmt (name uploaded_file) in
  emit (status_text (processing total_files idx uploaded_file));;
  '(resume_text, success, error) ←
    lift (extract_text_from_file PdfReader pdfplumber_open Document decode
            uploaded_file);
  if negb success then
    emit (st_error (cross_mark ++ lit " " ++ fname ++ lit ": " ++ fmt error));;
    record_failure (fname ++ lit " - " ++ fmt error);;
    emit (progress (idx + 1) total_files)
  else
    emit (st_info (check_mark ++ lit " Extracted "
                   ++ str_of_nat (length resume_text)
                   ++ lit " characters from " ++ fname));;
    emit (st_spinner (robot ++ lit " Analyzing " ++ fname ++ lit "..."));;
    match run_complete_analysis idx resume_text the_job_requirements with
    | AnalysisRaises e =>
        emit (st_error (cross_mark ++ lit " " ++ fname
                        ++ lit ": Analysis error - " ++ exn_str e));;
        record_failure (fname ++ lit " - Analysis error: " ++ exn_str e);;
        emit (progress (idx + 1) total_files)
    | AnalysisReturns result =>
        (if is_success result then
           parsed ← lift (dict_getitem "parsed_resume"
                                       (result ≫= r_parsed_resume));
           analysis ← lift (dict_getitem "analysis" (result ≫= r_analysis));
           record_success
             (new_entry parsed analysis (now idx) uploaded_file)
             {| cur_parsed := parsed; cur_analysis := analysis;
                cur_resume_name := name uploaded_file |};;
           emit (st_success (check_mark ++ lit " " ++ fname
                             ++ lit " - Analysis complete!"))
         else
           emit (st_error (cross_mark ++ lit " " ++ fname ++ lit ": "
                           ++ error_msg result));;
           record_failure (fname ++ lit " - " ++ error_msg result));;
        emit (progress (idx + 1) total_files)
    end.

(** Lines 207-315: the body of the button, which the page runs when the
    list of uploaded files is not empty. *)
Definition analyze_all (uploaded_files : list UploadedFile) : Py state unit :=
  let total_files := length uploaded_files in
  emit (progress 0 1);;
  reset_counters;;
  for_each (enumerate uploaded_files)
    (fun '(idx, uploaded_file) => process_file total_files idx uploaded_file);;
  emit (progress 1 1);;
  emit (status_success (check_mark ++ lit " Bulk processing complete!"));;
  s ← get;
  (if bool_decide (0 < successful s) then
     emit (st_success
             (newline ++ indent ++ lit "**Processing Summary:**"
              ++ newline ++ indent ++ lit "- " ++ check_mark
              ++ lit " Successful: " ++ str_of_nat (successful s)
              ++ newline ++ indent ++ lit "- " ++ cross_mark
              ++ lit " Failed: " ++ str_of_nat (failed s)
              ++ newline ++ indent ++ lit "- " ++ bar_chart
              ++ lit " Total: " ++ str_of_nat total_files
              ++ newline ++ indent))
   else mret tt);;
  if bool_decide (0 < failed s) then
    emit (st_error (lit "**Failed Resumes (" ++ str_of_nat (failed s)
                    ++ lit "):**"));;
    for_each (failed_files s) (fun failed_file =>
      emit (st_write (bullet ++ lit " " ++ failed_file)))
  else mret tt.

(** ** The batch, read off the documents

    The reason with which the file at a position fails, [None] when it
    does not: the error of the extraction, the exception of the analysis,
    or the error message of an answer that is not a success. *)
Definition item_failure (idx : nat) (uploaded_file : UploadedFile)
  : option pystr :=
  match extract_text_from_file PdfReader pdfplumber_open Document decode
          uploaded_file with
  | Ret (resume_text, success, error) =>
      if negb success then Some (fmt error)
      else
        match run_complete_analysis idx resume_text the_job_requirements with
        | AnalysisRaises e => Some (lit "Analysis error: " ++ exn_str e)
        | AnalysisReturns result =>
            if is_success result then None else Some (error_msg result)
        end
  | Raise _ => None
  end.

(** The entry of the failure list for a file: its name and the reason. *)
Definition failure_entry (item : nat * UploadedFile) : option pystr :=
  reason ← item_failure item.1 item.2;
  Some (fmt (name item.2) ++ lit " - " ++ reason).

(** The analysis keeps its contract: an answer that is a success has the
    parsed resume and the analysis. *)
Definition answers_well_formed : Prop :=
  forall idx resume_text result,
    run_complete_analysis idx resume_text the_job_requirements
      = AnalysisReturns result ->
    is_success result = true ->
    is_Some (result ≫= r_parsed_resume) /\ is_Some (result ≫= r_analysis).

(** The name under which a file is stored in the results, [None] when it
    fails and is not stored. *)
Definition stored_name (item : nat * UploadedFile) : option (option pystr) :=
  match item_failure item.1 item.2 with
  | None => Some (name item.2)
  | Some _ => None
  end.

(** What a file leaves as the last analysis: the parsed resume and the
    analysis that the answer for its extracted text holds, with its name,
    when the extraction succeeds and the answer is a success that has
    both; [None] for any other file. *)
Definition stored_analysis (item : nat * UploadedFile) : option current :=
  match extract_text_from_file PdfReader pdfplumber_open Document decode
          item.2 with
  | Ret (resume_text, true, _) =>
      match run_complete_analysis item.1 resume_text the_job_requirements with
      | AnalysisReturns result =>
          if is_success result then
            parsed ← result ≫= r_parsed_resume;
            analysis ← result ≫= r_analysis;
            Some {| cur_parsed := parsed; cur_analysis := analysis;
                    cur_resume_name := name item.2 |}
          else None
      | AnalysisRaises _ => None
      end
  | _ => None
  end.
End Batch.

(** The messages put in the status line, in the order they were shown. *)
Definition status_lines (events : list ui_event) : list pystr :=
  omap (fun e => match e with status_text msg => Some msg | _ => None end)
       events.

(** The fractions given to the progress bar, as numerator and
    denominator, the lines written with [st.write] and the messages shown
    with [st.success], each in the order of the calls. *)
Definition progress_events (events : list ui_event) : list (nat * nat) :=
  omap (fun e => match e with progress n d => Some (n, d) | _ => None end)
       events.

Definition written_lines (events : list ui_event) : list pystr :=
  omap (fun e => match e with st_write msg => Some msg | _ => None end)
       events.

Definition success_messages (events : list ui_event) : list pystr :=
  omap (fun e => match e with st_success msg => Some msg | _ => None end)
       events.

(** ** The statistics of the sidebar and the pages of results

    What the page computes from [st.session_state.all_results] before it
    draws: the calls that draw are not part of the embedding. An entry has
    all its keys (lines 265-278), so [r.get(key, default)] is the field. *)



(** Line 341:
    [sorted(results, key=lambda x: x.get("confidence_score", 0), reverse=True)].
    [sorted] is stable, also with [reverse=True]: entries with the same
    score keep their order. The embedding inserts each entry before the
    first one of the sorted rest whose score is not greater. *)
Fixpoint insert_by_score (c : candidate) (sorted : list candidate)
  : list candidate :=
  match sorted with
  | [] => [c]
  | d :: rest =>
      if (c_confidence_score d <=? c_confidence_score c)%Z
      then c :: d :: rest
      else d :: insert_by_score c rest
  end.

Definition sorted_results (results : list candidate) : list candidate :=
  foldr insert_by_score [] results.

(** An entry may be shown before another when its score is not smaller. *)
Definition before (c d : candidate) : Prop :=
  (c_confidence_score d <= c_confidence_score c)%Z.

(** Lines 480-506, the tab of all candidates: the rows of the table, or
    [None] when there is no result and the page shows a notice instead. *)
Definition all_candidates_rows (results : list candidate) (min_score : Z)
    (show_shortlisted : bool) : option (list candidate) :=
  match results with
  | [] => None
  | _ :: _ =>
      let filtered_df :=
        List.filter (fun c => (c_confidence_score c >=? min_score)%Z)
                    results in
      Some (if show_shortlisted
            then List.filter (fun c => Bool.eqb (c_shortlisted c) true)
                             filtered_df
            else filtered_df)
  end.

(** An entry passes the filters of the tab of all candidates when its
    score is at least the minimum and, if only the shortlisted are asked
    for, its flag is set. *)
Definition shown (min_score : Z) (show_shortlisted : bool) (c : candidate)
  : Prop :=
  (min_score <= c_confidence_score c)%Z /\
  (show_shortlisted = true -> c_shortlisted c = true).

#[global] Instance shown_dec min_score show_shortlisted c :
  Decision (shown min_score show_shortlisted c) :=
  and_dec (decide (min_score <= c_confidence_score c)%Z)
          (decide (show_shortlisted = true -> c_shortlisted c = true)).

(** Line 512, the tab of the shortlisted:
    [[r for r in results if r.get("shortlisted", False)]] *)
Definition shortlisted_rows (results : list candidate) : list candidate :=
  List.filter c_shortlisted results.

(** ** Concrete documents and collaborators *)

(** A decoder for contents that are ASCII, where UTF-8 is the identity. *)
Definition decode_ascii (content : list byte) : result pystr :=
  if forallb (fun b => (Byte.to_N b <? 128)%N) content
  then Ret (Byte.to_N <$> content)
  else Raise (Exn "UnicodeDecodeError" (lit "invalid start byte")).

Definition not_a_docx (content : list byte) : result (list pystr) :=
  Raise (Exn "BadZipFile" (lit "File is not a zip file")).

Definition page_one : pystr := lit "Jane Doe - Python developer".
Definition page_two : pystr := lit " - Django, AWS".

Definition damaged : exn := Exn "PdfReadError" (lit "Invalid stream").

(** Two pages, the second of which cannot be read. *)
Definition second_page_fails (content : list byte) : pdf :=
  Pdf [PageText (Some page_one); PageRaises damaged].

Definition both_pages_read (content : list byte) : pdf :=
  Pdf [PageText (Some page_one); PageText (Some page_two)].

Definition cv_pdf : UploadedFile :=
  {| type := Some (lit "application/pdf"); name := Some (lit "cv.pdf");
     getvalue := [] |}.

Definition cv_txt : UploadedFile :=
  {| type := Some (lit "text/plain"); name := Some (lit "cv.txt");
     getvalue := list_byte_of_string "Jane Doe" |}.

Definition blank_txt : UploadedFile :=
  {| type := Some (lit "text/plain"); name := Some (lit "blank.txt");
     getvalue := list_byte_of_string "   " |}.

Definition other_txt : UploadedFile :=
  {| type := Some (lit "text/plain"); name := Some (lit "other.txt");
     getvalue := list_byte_of_string "John Roe" |}.

Definition untyped : UploadedFile :=
  {| type := None; name := Some (lit "cv"); getvalue := [] |}.

Definition the_widgets : sidebar :=
  {| job_title := lit "Senior Python Developer";
     required_skills := lit "Python, Django, AWS";
     min_experience := 0; max_experience := 3;
     nice_to_have := lit "Docker, Kubernetes, Redis";
     shortlist_threshold := 70 |}.

Definition jane : parsed_dict :=
  {| p_name := Some (lit "Jane Doe"); p_email := Some (lit "jane@example.org");
     p_phone := None; p_experience_years := Some 4%Z;
     p_skills := Some [lit "Python"; lit "Django"] |}.

Definition good_fit : analysis_dict :=
  {| a_confidence_score := Some 85%Z;
     a_key_strengths := Some [lit "Python"];
     a_gaps := Some [lit "AWS"];
     a_recommendation := Some (lit "Interview") |}.

Definition accepted : analysis_result :=
  {| r_status := Some (lit "success"); r_error := None;
     r_parsed_resume := Some jane; r_analysis := Some good_fit |}.

(** An analysis that accepts the first file, rejects the third and is
    rate-limited on the fourth. *)
Definition the_analysis (idx : nat) (resume_text : pystr)
    (requirements : job_requirements) : analysis_outcome :=
  match idx with
  | 0 => AnalysisReturns (Some accepted)
  | 2 =>
      AnalysisReturns
        (Some {| r_status := Some (lit "error");
                 r_error := Some (lit "Could not parse resume");
                 r_parsed_resume := None; r_analysis := None |})
  | 3 => AnalysisRaises (Exn "RateLimitError" (lit "rate limit reached"))
  | _ => AnalysisReturns None
  end.

(** An analysis that reports a success and leaves the analysis out. *)
Definition incomplete : analysis_result :=
  {| r_status := Some (lit "success"); r_error := None;
     r_parsed_resume := Some jane; r_analysis := None |}.

Definition the_broken_analysis (idx : nat) (resume_text : pystr)
    (requirements : job_requirements) : analysis_outcome :=
  match idx with
  | 0 => AnalysisReturns (Some incomplete)
  | _ => the_analysis idx resume_text requirements
  end.

(** An analysis whose answer for the second file reports a success and
    leaves the analysis out, the other answers being complete. *)
Definition the_malformed_analysis (idx : nat) (resume_text : pystr)
    (requirements : job_requirements) : analysis_outcome :=
  match idx with
  | 1 => AnalysisReturns (Some incomplete)
  | _ => AnalysisReturns (Some accepted)
  end.

(** A blank file, then two files with text. *)
Definition three_files : list UploadedFile := [blank_txt; cv_txt; other_txt].

(** An analysis that answers the same where a text was extracted and
    would raise elsewhere. *)
Definition the_other_analysis (idx : nat) (resume_text : pystr)
    (requirements : job_requirements) : analysis_outcome :=
  match idx with
  | 1 => AnalysisRaises (Exn "RuntimeError" (lit "never called"))
  | _ => the_analysis idx resume_text requirements
  end.

(** Three stored entries, two of them with the same score. *)
Definition entry (who : string) (score : Z) (flag : bool) : candidate :=
  {| c_name := lit who; c_email := []; c_phone := lit "N/A";
     c_experience_years := 0; c_skills := [];
     c_confidence_score := score; c_shortlisted := flag;
     c_key_strengths := []; c_gaps := [];
     c_recommendation := lit "N/A"; c_date := lit "2025-01-15 10:30";
     c_resume_file := Some (lit who) |}.

Definition three_entries : list candidate :=
  [entry "ann" 70 true; entry "bob" 90 true; entry "cid" 70 true;
   entry "dan" 40 false].

Definition the_clock (idx : nat) : pystr := lit "2025-01-15 10:30".

Definition the_batch : list UploadedFile :=
  [cv_txt; blank_txt; cv_pdf; other_txt].

Definition new_session : state :=
  {| successful := 0; failed := 0; failed_files := [];
     all_results := []; current_analysis := None; ui := [] |}.

(** The batch run with these. *)
Definition the_run : result unit * state :=
  analyze_all second_page_fails both_pages_read not_a_docx decode_ascii
    the_analysis the_clock the_widgets the_batch new_session.

End app.

(** * Properties *)

Ltac run_py :=
  unfold mbind, mret, Py_bind, Py_ret, bind, ret, raise, get, modify, lift,
    try_except_cls; cbv beta.

(** ** Programs that return *)

Lemma returns_bind {S A B} (m : Py S A) (k : A -> Py S B) :
  returns m -> (forall a, returns (k a)) -> returns (m ≫= k).
Proof.
  intros Hm Hk s. destruct (Hm s) as (a & s' & E).
  destruct (Hk a s') as (b & s'' & E').
  exists b, s''. run_py. now rewrite E.
Qed.

Lemma returns_mret {S A} (a : A) : returns (mret a : Py S A).
Proof. intros s. now exists a, s. Qed.

Lemma returns_get {S} : returns (get : Py S S).
Proof. intros s. now exists s, s. Qed.

Lemma returns_modify {S} (f : S -> S) : returns (modify f).
Proof. intros s. now exists tt, (f s). Qed.

Lemma returns_for_each {S A} (xs : list A) (body : A -> Py S unit) :
  (forall x, returns (body x)) -> returns (for_each xs body).
Proof.
  intros Hb. induction xs as [|x xs IH]; intros s.
  - now exists tt, s.
  - destruct (Hb x s) as ([] & s' & E). destruct (IH s') as (u & s'' & E').
    exists u, s''. cbn. unfold bind. now rewrite E.
Qed.

Lemma returns_try_except_Exception {S A} (m : Py S A) (h : exn -> Py S A) :
  (forall e, returns (h e)) -> returns (try_except_cls m "Exception" h).
Proof.
  intros Hh s. unfold try_except_cls.
  destruct (m s) as [[a|e] s'].
  - now exists a, s'.
  - cbn. apply Hh.
Qed.

(** ** The credential manager *)

Module api_key_manager_facts.
Import api_key_manager.

Lemma returns_log l msg : returns (log l msg).
Proof. apply returns_modify. Qed.

Lemma returns_append_key k : returns (append_key k).
Proof. apply returns_modify. Qed.

#[local] Hint Resolve returns_log returns_append_key : core.

Lemma returns_load_from_secrets env : returns (load_from_secrets env).
Proof.
  apply returns_try_except_Exception. intros e. apply returns_log.
Qed.

Lemma returns_load_from_environ env : returns (load_from_environ env).
Proof.
  apply returns_bind; [apply returns_get|]. intros h.
  destruct (no_keys h); [|apply returns_mret].
  apply returns_bind; [apply returns_log|]. intros _.
  apply returns_for_each. intros i.
  destruct (getenv env (key_name i)) as [key|]; [|apply returns_mret].
  destruct (truthy key); [|apply returns_mret].
  apply returns_bind; auto.
Qed.

Lemma returns_load_single_key env : returns (load_single_key env).
Proof.
  apply returns_bind; [apply returns_get|]. intros h.
  destruct (no_keys h); [|apply returns_mret].
  destruct (getenv env _) as [key|]; [|apply returns_mret].
  destruct (truthy key); [|apply returns_mret].
  apply returns_bind; auto.
Qed.

(** A loop whose body appends at most one key appends, in order, the keys
    of its items. *)
Lemma for_each_appends {A} (g : A -> option pystr) (body : A -> Py heap unit)
    (xs : list A) :
  (forall x s, exists s',
      body x s = (Ret tt, s') /\
      api_keys (self s') = api_keys (self s) ++ option_list (g x)) ->
  forall s, exists s',
    for_each xs body s = (Ret tt, s') /\
    api_keys (self s') = api_keys (self s) ++ omap g xs.
Proof.
  intros Hbody. induction xs as [|x xs IH]; intros s.
  - exists s. split; [reflexivity|]. cbn. now rewrite app_nil_r.
  - destruct (Hbody x s) as (s1 & E1 & K1).
    destruct (IH s1) as (s2 & E2 & K2).
    exists s2. cbn [for_each]. unfold bind. rewrite E1. split; [exact E2|].
    rewrite K2, K1, <- app_assoc. f_equal. cbn. now destruct (g x).
Qed.

Lemma log_run l msg s :
  log l msg s = (Ret tt, {| self := self s; logger := logger s ++ [Log l msg] |}).
Proof. reflexivity. Qed.

Lemma load_from_secrets_keys env s :
  exists s',
    load_from_secrets env s = (Ret tt, s') /\
    api_keys (self s') = api_keys (self s) ++ from_secrets env.
Proof.
  unfold load_from_secrets, from_secrets.
  destruct (st env) as [| |e|m].
  - eexists. split; [reflexivity|]. cbn. now rewrite app_nil_r.
  - eexists. split; [reflexivity|]. cbn. now rewrite app_nil_r.
  - unfold try_except_cls, raise.
    destruct (isinstance e "ImportError"); cbn [isinstance String.eqb orb];
      (eexists; split; [reflexivity|]); cbn; now rewrite app_nil_r.
  - case_bool_decide as Hsize.
    2:{ eexists. split; [reflexivity|]. cbn. now rewrite app_nil_r. }
    set (g := fun i : nat =>
                key ← m !! key_name i;
                if truthy key && negb (str_eqb key placeholder)
                then Some key else None).
    set (body := fun i : nat => try_except_cls _ "KeyError" _).
    assert (forall i s0, exists s',
               body i s0 = (Ret tt, s') /\
               api_keys (self s') = api_keys (self s0) ++ option_list (g i))
      as Hbody.
    { intros i s0. subst body g. unfold try_except_cls, secrets_getitem.
      run_py. cbn [mbind option_bind].
      destruct (m !! key_name i) as [key|]; cbn [option_bind].
      - destruct (truthy key && negb (str_eqb key placeholder));
          (eexists; split; [reflexivity|]); cbn; [reflexivity|].
        now rewrite app_nil_r.
      - eexists; split; [reflexivity|]. cbn. now rewrite app_nil_r. }
    destruct (for_each_appends g body (seq 1 9) Hbody
                {| self := self s;
                   logger := logger s
                     ++ [Log INFO (magnifier
                           ++ lit " Checking Streamlit secrets for API keys...")] |})
      as (s1 & E1 & K1).
    unfold try_except_cls. run_py. rewrite log_run. cbv beta iota.
    rewrite E1. cbv beta iota.
    destruct (no_keys s1); rewrite ?log_run; cbv beta iota;
      (eexists; split; [reflexivity|]); exact K1.
Qed.

Lemma load_from_environ_keys env s :
  exists s',
    load_from_environ env s = (Ret tt, s') /\
    api_keys (self s') =
      match api_keys (self s) with
      | [] => from_environ env
      | keys => keys
      end.
Proof.
  unfold load_from_environ, from_environ, no_keys. run_py.
  destruct (api_keys (self s)) as [|k0 ks] eqn:Hkeys.
  2:{ eexists. split; [reflexivity|]. exact Hkeys. }
  set (g := fun i : nat =>
              key ← getenv env (key_name i);
              if truthy key then Some key else None).
  set (body := fun i : nat => match getenv env (key_name i) with
                              | Some key => _ | None => _ end).
  assert (forall i s0, exists s',
             body i s0 = (Ret tt, s') /\
             api_keys (self s') = api_keys (self s0) ++ option_list (g i))
    as Hbody.
  { intros i s0. subst body g. unfold mbind.
    destruct (getenv env (key_name i)) as [key|]; cbn [option_bind].
    - destruct (truthy key); (eexists; split; [reflexivity|]); cbn;
        [reflexivity|]. now rewrite app_nil_r.
    - eexists; split; [reflexivity|]. cbn. now rewrite app_nil_r. }
  rewrite log_run. cbv beta iota.
  destruct (for_each_appends g body (seq 1 9) Hbody
              {| self := self s;
                 logger := logger s
                   ++ [Log INFO (magnifier
                         ++ lit " Checking environment variables for API keys...")] |})
    as (s1 & E1 & K1).
  rewrite E1. eexists. split; [reflexivity|].
  rewrite K1. cbn [self]. now rewrite Hkeys.
Qed.

Lemma load_single_key_keys env s :
  exists s',
    load_single_key env s = (Ret tt, s') /\
    api_keys (self s') =
      match api_keys (self s) with
      | [] => from_single_key env
      | keys => keys
      end.
Proof.
  unfold load_single_key, from_single_key, no_keys. run_py.
  destruct (api_keys (self s)) as [|k0 ks] eqn:Hkeys.
  2:{ eexists. split; [reflexivity|]. exact Hkeys. }
  destruct (getenv env _) as [key|].
  2:{ eexists. split; [reflexivity|]. exact Hkeys. }
  destruct (truthy key); (eexists; split; [reflexivity|]); cbn.
  - now rewrite Hkeys.
  - exact Hkeys.
Qed.

(** The pool of a new manager is what the first source with a key
    yields: the secrets, else the numbered variables, else the single
    variable; in each, the keys come in the order of their numbers. *)
Lemma init_api_keys env logged :
  api_keys (self (new env logged)) = first_source env.
Proof.
  unfold new, __init__, set_api_keys, set_current_index. run_py.
  cbn [self logger current_index blank].
  destruct (load_from_secrets_keys env
              {| self := {| api_keys := []; current_index := 0 |};
                 logger := logged |}) as (s1 & -> & K1).
  destruct (load_from_environ_keys env s1) as (s2 & -> & K2).
  destruct (load_single_key_keys env s2) as (s3 & -> & K3).
  cbn [self api_keys app] in K1.
  assert (api_keys (self s3) = first_source env) as <-.
  { unfold first_source. rewrite K3, K2, K1.
    destruct (from_secrets env); [|reflexivity].
    now destruct (from_environ env). }
  unfold no_keys, log, modify. cbn [self api_keys].
  destruct (api_keys (self s3)); reflexivity.
Qed.

(** Line 63: a new manager points at the first key. *)
Lemma init_current_index env logged :
  current_index (self (new env logged)) = 0.
Proof.
  unfold new, __init__, set_api_keys, set_current_index. run_py.
  cbn [self logger current_index blank].
  destruct (returns_load_from_secrets env
              {| self := {| api_keys := []; current_index := 0 |};
                 logger := logged |}) as ([] & s1 & ->).
  destruct (returns_load_from_environ env s1) as ([] & s2 & ->).
  destruct (returns_load_single_key env s2) as ([] & s3 & ->).
  unfold no_keys, log, modify. cbn [self api_keys].
  destruct (api_keys (self s3)); reflexivity.
Qed.

Lemma rotate_to_next_self h :
  self (snd (rotate_to_next h)) =
  if (length (api_keys (self h)) <=? 1)%nat then self h
  else {| api_keys := api_keys (self h);
          current_index :=
            (current_index (self h) + 1) mod length (api_keys (self h)) |}.
Proof.
  unfold rotate_to_next, log, set_current_index. run_py.
  destruct (length (api_keys (self h)) <=? 1)%nat.
  - destruct (no_keys h); cbn [negb]; [reflexivity|].
    now destruct (getitem _ _).
  - cbn [self api_keys current_index]. now destruct (getitem _ _).
Qed.

(** The pool never changes: rotation only moves the index. *)
Lemma rotate_times_api_keys k h :
  api_keys (self (rotate_times k h)) = api_keys (self h).
Proof.
  induction k as [|k IH]; [reflexivity|]. cbn [rotate_times].
  rewrite rotate_to_next_self.
  now destruct (length _ <=? 1)%nat.
Qed.

(** C3. With a pool of N >= 1 keys and the index at 0, as [__init__]
    leaves it, the index after k calls of [rotate_to_next] is k mod N,
    for every k. *)
Theorem rotate_times_current_index (h : heap) (k : nat) :
  1 <= length (api_keys (self h)) ->
  current_index (self h) = 0 ->
  current_index (self (rotate_times k h)) = k mod length (api_keys (self h)).
Proof.
  intros HN H0. induction k as [|k IH].
  - cbn. rewrite H0. symmetry. apply Nat.Div0.mod_0_l.
  - cbn [rotate_times]. rewrite rotate_to_next_self, rotate_times_api_keys.
    destruct (length (api_keys (self h)) <=? 1)%nat eqn:E.
    + apply Nat.leb_le in E.
      assert (length (api_keys (self h)) = 1) as HN1 by lia.
      rewrite IH, HN1. now rewrite !Nat.mod_1_r.
    + cbn. rewrite IH. rewrite Nat.Div0.add_mod_idemp_l.
      f_equal. lia.
Qed.

Lemma rotate_times_current_index_witness :
  1 <= length (api_keys (self (new pool3 []))) /\
  current_index (self (new pool3 [])) = 0 /\
  current_index (self (rotate_times 5 (new pool3 []))) =
    5 mod length (api_keys (self (new pool3 []))).
Proof.
  split; [vm_compute; lia|]. split; [vm_compute; reflexivity|].
  apply (rotate_times_current_index (new pool3 []) 5).
  - vm_compute; lia.
  - vm_compute; reflexivity.
Defined.

(** The same for a manager as [__init__] leaves it. *)
Lemma rotate_times_after_init env logged k :
  api_keys (self (new env logged)) <> [] ->
  current_index (self (rotate_times k (new env logged))) =
    k mod length (api_keys (self (new env logged))).
Proof.
  intros Hne. revert k.
  assert (1 <= length (api_keys (self (new env logged)))) as HN.
  { destruct (api_keys (self (new env logged))); [congruence|cbn; lia]. }
  pose proof (init_current_index env logged) as H0.
  induction k as [|k IH].
  - cbn. rewrite H0. symmetry. apply Nat.Div0.mod_0_l.
  - cbn [rotate_times]. rewrite rotate_to_next_self, rotate_times_api_keys.
    destruct (length _ <=? 1)%nat eqn:E.
    + apply Nat.leb_le in E.
      assert (length (api_keys (self (new env logged))) = 1) as HN1 by lia.
      rewrite IH, HN1. now rewrite !Nat.mod_1_r.
    + cbn. rewrite IH, Nat.Div0.add_mod_idemp_l. f_equal. lia.
Qed.

(** The index of a manager that was built by [__init__] and then rotated
    stays inside a non-empty pool. *)
Lemma current_index_valid env logged k :
  let h := rotate_times k (new env logged) in
  api_keys (self h) <> [] ->
  current_index (self h) < length (api_keys (self h)).
Proof.
  intros h Hne. subst h. rewrite rotate_times_api_keys in *.
  rewrite rotate_times_after_init by exact Hne.
  apply Nat.mod_upper_bound.
  destruct (api_keys (self (new env logged))); [congruence|cbn; lia].
Qed.

(** C4, as the code has it. With at most one key, [rotate_to_next] leaves
    the object as it is, logs one record at level WARNING, and returns
    normally: the sole key when there is one, [None] when the pool is
    empty. *)
Theorem rotate_to_next_small_pool (h : heap) :
  length (api_keys (self h)) <= 1 ->
  self (snd (rotate_to_next h)) = self h /\
  logger (snd (rotate_to_next h)) = logger h ++ [Log WARNING only_one_key] /\
  (forall key, api_keys (self h) = [key] ->
     fst (rotate_to_next h) = Ret (Some key)) /\
  (api_keys (self h) = [] -> fst (rotate_to_next h) = Ret None).
Proof.
  intros HN. unfold rotate_to_next, log. run_py.
  apply Nat.leb_le in HN. rewrite HN. unfold no_keys.
  destruct (api_keys (self h)) as [|key [|key' rest]]; cbn.
  - repeat split; [intros ?; discriminate].
  - repeat split; [|intros ?; discriminate]. now intros ? [= ->].
  - discriminate.
Qed.

Lemma rotate_to_next_small_pool_witness :
  fst (rotate_to_next one_key) = Ret (Some (lit "gsk_a")).
Proof.
  refine (proj1 (proj2 (proj2 (rotate_to_next_small_pool one_key _))) _ _).
  - cbn. lia.
  - reflexivity.
Defined.

(** C4, as the specification words it, asks for a failure on the empty
    pool; the call returns [None] there and raises nothing. *)
Lemma rotate_to_next_empty_pool_returns :
  rotate_to_next empty_pool =
    (Ret None, {| self := blank; logger := [Log WARNING only_one_key] |}) /\
  forall e, fst (rotate_to_next empty_pool) <> Raise e.
Proof. split; [reflexivity|]. intros e. discriminate. Qed.

(** C9. On an empty pool [get_current_key] raises the [ValueError]
    "No API keys configured!" and returns nothing; on a non-empty pool,
    with the index inside it, it returns the key at [current_index]. The
    object is not changed. *)
Theorem get_current_key_spec (h : heap) :
  (api_keys (self h) = [] ->
     get_current_key h = (Raise no_keys_configured, h) /\
     forall key, fst (get_current_key h) <> Ret key) /\
  (api_keys (self h) <> [] ->
   current_index (self h) < length (api_keys (self h)) ->
     exists key, api_keys (self h) !! current_index (self h) = Some key /\
                 get_current_key h = (Ret key, h)).
Proof.
  unfold get_current_key, no_keys, getitem. run_py. split.
  - intros ->. split; [reflexivity|]. intros key. discriminate.
  - intros Hne Hlt. destruct (api_keys (self h)) as [|k0 ks] eqn:E; [congruence|].
    destruct (lookup_lt_is_Some_2 (k0 :: ks) (current_index (self h)) Hlt)
      as [key Hkey].
    exists key. now rewrite Hkey.
Qed.

Lemma get_current_key_spec_witness :
  get_current_key empty_pool = (Raise no_keys_configured, empty_pool) /\
  get_current_key (rotate_times 4 (new pool3 [])) =
    (Ret (lit "gsk_b"), rotate_times 4 (new pool3 [])).
Proof.
  split.
  - apply (proj1 (get_current_key_spec empty_pool)). reflexivity.
  - destruct (proj2 (get_current_key_spec (rotate_times 4 (new pool3 []))))
      as (key & Hkey & Hget).
    + vm_compute. discriminate.
    + vm_compute. lia.
    + rewrite Hget. vm_compute in Hkey. now injection Hkey as <-.
Defined.

(** C7, where the code departs from it. The placeholder is dropped when it
    comes from the secrets (line 31) and loaded as a credential when it
    comes from the environment (lines 52 and 59). *)
Theorem init_placeholder :
  api_keys (self (new placeholder_in_secrets [])) = [lit "gsk_b"] /\
  api_keys (self (new placeholder_in_environ [])) = [placeholder] /\
  api_keys (self (new placeholder_as_single_key [])) = [placeholder].
Proof. repeat split; vm_compute; reflexivity. Qed.

End api_key_manager_facts.

(** ** More on the credential manager *)

Module api_key_manager_more.
Import api_key_manager api_key_manager_facts.

Lemma length_omap_le {A B} (f : A -> option B) (l : list A) :
  length (omap f l) <= length l.
Proof.
  induction l as [|x l IH]; cbn; [lia|]. destruct (f x); cbn; lia.
Qed.

(** [__init__] runs to its end on a new object, whatever it finds. *)
Lemma init_runs env logged :
  exists h,
    __init__ env {| self := blank; logger := logged |} = (Ret tt, h) /\
    current_index (self h) = 0 /\
    last (logger h) =
      Some (match api_keys (self h) with
            | [] => Log ERROR (lit "For local: Add them to .env file")
            | _ :: _ =>
                Log INFO (party ++ lit " Successfully loaded "
                          ++ str_of_nat (length (api_keys (self h)))
                          ++ lit " API key(s) for rotation")
            end).
Proof.
  unfold __init__, set_api_keys, set_current_index. run_py.
  cbn [self logger current_index blank].
  destruct (load_from_secrets_keys env
              {| self := {| api_keys := []; current_index := 0 |};
                 logger := logged |}) as (s1 & -> & _).
  destruct (load_from_environ_keys env s1) as (s2 & -> & _).
  destruct (load_single_key_keys env s2) as (s3 & -> & _).
  unfold no_keys. cbn [self api_keys].
  destruct (api_keys (self s3)) as [|k0 ks] eqn:Hkeys; cbn [negb];
    rewrite ?log_run; cbv beta iota; rewrite ?log_run;
    (eexists; split; [reflexivity|]);
    cbn [self logger api_keys current_index]; rewrite ?Hkeys;
    (split; [reflexivity|]); apply last_snoc.
Qed.

(** X1. [__init__] never raises. It leaves the index at 0 and, as the
    pool, the keys of the first source that has one: the secrets, else
    the numbered variables of the environment, else the single variable;
    the keys of a numbered source come in the order of their numbers. *)
Theorem init_loads_first_source (env : environment)
    (logged : list log_record) :
  __init__ env {| self := blank; logger := logged |}
    = (Ret tt, new env logged) /\
  self (new env logged)
    = {| api_keys := first_source env; current_index := 0 |}.
Proof.
  destruct (init_runs env logged) as (h & Hrun & H0 & _).
  assert (new env logged = h) as Hnew by (unfold new; now rewrite Hrun).
  split; [now rewrite Hnew|].
  pose proof (init_api_keys env logged) as Hkeys.
  rewrite Hnew in *. destruct (self h) as [keys i]. cbn in *. congruence.
Qed.

(** X2. The last record [__init__] logs tells the outcome: an INFO record
    with the number of keys when there is one, and an ERROR record when
    the pool is empty. *)
Theorem init_last_record (env : environment) (logged : list log_record) :
  last (logger (new env logged)) =
    Some (match first_source env with
          | [] => Log ERROR (lit "For local: Add them to .env file")
          | _ :: _ =>
              Log INFO (party ++ lit " Successfully loaded "
                        ++ str_of_nat (length (first_source env))
                        ++ lit " API key(s) for rotation")
          end).
Proof.
  destruct (init_runs env logged) as (h & Hrun & _ & Hlast).
  assert (new env logged = h) as Hnew by (unfold new; now rewrite Hrun).
  rewrite <- (init_api_keys env logged), Hnew. exact Hlast.
Qed.

Lemma from_secrets_elem env key :
  key ∈ from_secrets env -> key <> [] /\ key <> placeholder.
Proof.
  unfold from_secrets. destruct (st env) as [| |e|m];
    try (intros Hnil; now apply elem_of_nil in Hnil).
  case_bool_decide; [|intros Hnil; now apply elem_of_nil in Hnil].
  intros (i & _ & Hi)%list_elem_of_omap.
  destruct (m !! key_name i) as [v|]; [|discriminate]. cbn in Hi.
  destruct (truthy v) eqn:Hv; [|discriminate]. cbn in Hi.
  unfold str_eqb in Hi. case_bool_decide as Hp; [discriminate|].
  injection Hi as <-. split; [|exact Hp]. now destruct v.
Qed.

Lemma from_environ_elem env key :
  key ∈ from_environ env ->
  key <> [] /\ exists i, getenv env (key_name i) = Some key.
Proof.
  unfold from_environ. intros (i & _ & Hi)%list_elem_of_omap.
  destruct (getenv env (key_name i)) as [v|] eqn:Hget; [|discriminate].
  cbn in Hi. destruct (truthy v) eqn:Hv; [|discriminate].
  injection Hi as <-. split; [now destruct v|]. now exists i.
Qed.

Lemma from_single_key_elem env key :
  key ∈ from_single_key env ->
  key <> [] /\ getenv env (lit "GROQ_API_KEY") = Some key.
Proof.
  unfold from_single_key.
  destruct (getenv env _) as [v|]; [|intros Hnil; now apply elem_of_nil in Hnil].
  destruct (truthy v) eqn:Hv; [|intros Hnil; now apply elem_of_nil in Hnil].
  intros ->%list_elem_of_singleton. split; [now destruct v|reflexivity].
Qed.

Lemma first_source_cases env :
  first_source env = from_secrets env \/
  (from_secrets env = [] /\
   (first_source env = from_environ env \/
    first_source env = from_single_key env)).
Proof.
  unfold first_source. destruct (from_secrets env); [|now left].
  right. split; [reflexivity|]. destruct (from_environ env); auto.
Qed.

(** X3. A new pool has at most nine keys and no empty one. *)
Theorem init_pool_bounds (env : environment) (logged : list log_record) :
  length (api_keys (self (new env logged))) <= 9 /\
  Forall (fun key => key <> []) (api_keys (self (new env logged))).
Proof.
  rewrite init_api_keys. split.
  - destruct (first_source_cases env) as [->|(_ & [->| ->])].
    + unfold from_secrets. destruct (st env); cbn [length]; try lia.
      case_bool_decide; cbn [length]; [|lia].
      etrans; [apply length_omap_le|]. reflexivity.
    + unfold from_environ. etrans; [apply length_omap_le|]. reflexivity.
    + unfold from_single_key. destruct (getenv env _) as [v|]; cbn; [|lia].
      destruct (truthy v); cbn; lia.
  - apply Forall_forall. intros key Hkey.
    destruct (first_source_cases env) as [E|(_ & [E|E])]; rewrite E in Hkey.
    + now apply from_secrets_elem in Hkey.
    + now apply from_environ_elem in Hkey.
    + now apply from_single_key_elem in Hkey.
Qed.

(** X4. The placeholder gets into a pool only from the environment: when
    a new pool holds it, a variable of the environment has it as its
    value, and the secrets have given no key. *)
Theorem placeholder_comes_from_environ (env : environment)
    (logged : list log_record) :
  placeholder ∈ api_keys (self (new env logged)) ->
  from_secrets env = [] /\
  exists name, environ env !! name = Some placeholder.
Proof.
  rewrite init_api_keys. intros Hin.
  destruct (first_source_cases env) as [E|(Hs & [E|E])]; rewrite E in Hin.
  - apply from_secrets_elem in Hin as [_ Hp]. now contradiction Hp.
  - split; [exact Hs|].
    apply from_environ_elem in Hin as (_ & i & Hi).
    exists (key_name i). exact Hi.
  - split; [exact Hs|].
    apply from_single_key_elem in Hin as (_ & Hi).
    exists (lit "GROQ_API_KEY"). exact Hi.
Qed.

Lemma placeholder_comes_from_environ_witness :
  exists name, environ placeholder_in_environ !! name = Some placeholder.
Proof.
  refine (proj2 (placeholder_comes_from_environ placeholder_in_environ [] _)).
  vm_compute. apply list_elem_of_here.
Defined.

(** One call of [rotate_to_next] on a pool of two keys or more. *)
Lemma rotate_to_next_run h :
  2 <= length (api_keys (self h)) ->
  let next := (current_index (self h) + 1) mod length (api_keys (self h)) in
  exists key,
    api_keys (self h) !! next = Some key /\
    rotate_to_next h =
    (Ret (Some key),
     {| self := {| api_keys := api_keys (self h); current_index := next |};
        logger :=
          logger h
          ++ [Log INFO
                (arrows ++ lit " Rotating API key: Key #"
                 ++ str_of_nat (current_index (self h) + 1)
                 ++ lit " " ++ right_arrow ++ lit " Key #"
                 ++ str_of_nat (next + 1))] |}).
Proof.
  intros HN next.
  assert (next < length (api_keys (self h))) as Hlt
    by (apply Nat.mod_upper_bound; lia).
  destruct (lookup_lt_is_Some_2 _ _ Hlt) as [key Hkey].
  exists key. split; [exact Hkey|].
  unfold rotate_to_next, set_current_index, getitem. run_py.
  destruct (length (api_keys (self h)) <=? 1)%nat eqn:E;
    [apply Nat.leb_le in E; lia|].
  rewrite log_run. cbv beta iota. cbn [self api_keys current_index logger].
  fold next. now rewrite Hkey.
Qed.

(** One call of [rotate_to_next] on a pool of at most one key. *)
Lemma rotate_to_next_run_small h :
  length (api_keys (self h)) <= 1 ->
  rotate_to_next h =
  (Ret (api_keys (self h) !! 0),
   {| self := self h; logger := logger h ++ [Log WARNING only_one_key] |}).
Proof.
  intros HN. unfold rotate_to_next, getitem, no_keys. run_py.
  apply Nat.leb_le in HN. rewrite HN. rewrite log_run. cbv beta iota.
  destruct (api_keys (self h)) as [|key rest]; reflexivity.
Qed.

(** X5. [rotate_to_next] never raises, whatever the index. It leaves the
    pool as it is, adds one record to the log, a WARNING when there is at
    most one key and an INFO otherwise, and returns a key of the pool, or
    [None] when the pool is empty. *)
Theorem rotate_to_next_returns (h : heap) :
  exists r h' record,
    rotate_to_next h = (Ret r, h') /\
    api_keys (self h') = api_keys (self h) /\
    logger h' = logger h ++ [record] /\
    log_level record =
      (if (length (api_keys (self h)) <=? 1)%nat then WARNING else INFO) /\
    match r with
    | Some key => key ∈ api_keys (self h)
    | None => api_keys (self h) = []
    end.
Proof.
  destruct (length (api_keys (self h)) <=? 1)%nat eqn:E.
  - apply Nat.leb_le in E. rewrite (rotate_to_next_run_small h E).
    eexists _, _, _. split; [reflexivity|]. cbn [self logger].
    repeat split. destruct (api_keys (self h)) as [|key rest]; cbn.
    + reflexivity.
    + apply list_elem_of_here.
  - apply Nat.leb_gt in E.
    destruct (rotate_to_next_run h ltac:(lia)) as (key & Hkey & ->).
    eexists _, _, _. split; [reflexivity|]. cbn [self logger api_keys].
    repeat split. now apply list_elem_of_lookup_2 in Hkey.
Qed.

Lemma length_rotate_returns k h : length (rotate_returns k h) = k.
Proof.
  revert h. induction k as [|k IH]; intros h; cbn; [|rewrite IH]; reflexivity.
Qed.

Lemma rotate_returns_lookup k h j :
  2 <= length (api_keys (self h)) ->
  j < k ->
  rotate_returns k h !! j =
  Some (Ret (api_keys (self h)
             !! ((current_index (self h) + j + 1)
                 mod length (api_keys (self h))))).
Proof.
  revert h j. induction k as [|k IH]; intros h j HN Hj; [lia|].
  cbn [rotate_returns].
  destruct (rotate_to_next_run h HN) as (key & Hkey & Hrun). rewrite Hrun.
  cbn [fst snd]. destruct j as [|j].
  - cbn. rewrite Nat.add_0_r. now rewrite Hkey.
  - cbn [lookup list_lookup]. rewrite IH by (cbn; lia).
    cbn [self api_keys current_index]. do 3 f_equal.
    rewrite <- Nat.add_assoc, Nat.Div0.add_mod_idemp_l. f_equal. lia.
Qed.

(** X6. Starting at the first key of a pool of N >= 2 keys, N calls of
    [rotate_to_next] return every key once: the second, the third, and so
    on to the last, and then the first again. *)
Theorem rotate_returns_full_cycle (h : heap) :
  2 <= length (api_keys (self h)) ->
  current_index (self h) = 0 ->
  rotate_returns (length (api_keys (self h))) h =
    (fun key => Ret (Some key))
    <$> (drop 1 (api_keys (self h)) ++ take 1 (api_keys (self h))).
Proof.
  intros HN H0. apply list_eq. intros j.
  set (keys := api_keys (self h)) in *.
  destruct (decide (j < length keys)) as [Hj|Hj].
  - rewrite rotate_returns_lookup by (fold keys; lia). fold keys.
    rewrite H0, list_lookup_fmap. cbn [Nat.add].
    destruct (decide (j + 1 < length keys)) as [Hlast|Hlast].
    + rewrite Nat.mod_small by lia.
      rewrite lookup_app_l by (rewrite length_drop; lia).
      rewrite lookup_drop, (Nat.add_comm 1 j).
      destruct (lookup_lt_is_Some_2 keys (j + 1) Hlast) as [key ->].
      reflexivity.
    + assert (j + 1 = length keys) as -> by lia.
      rewrite Nat.Div0.mod_same.
      rewrite lookup_app_r by (rewrite length_drop; lia).
      rewrite length_drop. replace (j - (length keys - 1)) with 0 by lia.
      rewrite lookup_take_lt by lia.
      destruct (lookup_lt_is_Some_2 keys 0 ltac:(lia)) as [key ->].
      reflexivity.
  - rewrite lookup_ge_None_2 by (rewrite length_rotate_returns; lia).
    rewrite lookup_ge_None_2; [reflexivity|].
    rewrite length_fmap, length_app, length_drop, length_take. lia.
Qed.

Lemma rotate_returns_full_cycle_witness :
  rotate_returns 3 (new pool3 []) =
    [Ret (Some (lit "gsk_b")); Ret (Some (lit "gsk_c"));
     Ret (Some (lit "gsk_a"))].
Proof.
  change 3 with (length (api_keys (self (new pool3 [])))) at 1.
  rewrite (rotate_returns_full_cycle (new pool3 []));
    [reflexivity|vm_compute; lia|reflexivity].
Defined.

(** The state [rotate_to_next] leaves is one in which [get_current_key]
    finds the key that was returned. *)
Lemma rotate_to_next_leaves_current (h : heap) :
  api_keys (self h) <> [] ->
  current_index (self h) < length (api_keys (self h)) ->
  exists key h',
    rotate_to_next h = (Ret (Some key), h') /\
    get_current_key h' = (Ret key, h') /\
    api_keys (self h') = api_keys (self h).
Proof.
  intros Hne Hlt.
  destruct (length (api_keys (self h)) <=? 1)%nat eqn:E.
  - apply Nat.leb_le in E. rewrite (rotate_to_next_run_small h E).
    destruct (api_keys (self h)) as [|key rest] eqn:Hkeys; [congruence|].
    assert (current_index (self h) = 0) as H0 by (cbn in *; lia).
    exists key. eexists. split; [reflexivity|].
    split; [|cbn [self]; congruence].
    unfold get_current_key, no_keys, getitem. run_py. cbn [self].
    now rewrite Hkeys, H0.
  - apply Nat.leb_gt in E.
    destruct (rotate_to_next_run h ltac:(lia)) as (key & Hkey & ->).
    exists key. eexists. split; [reflexivity|]. split; [|reflexivity].
    unfold get_current_key, no_keys, getitem. run_py.
    cbn [self api_keys current_index]. rewrite Hkey.
    now destruct (api_keys (self h)).
Qed.

(** X7. On a pool that is not empty, with the index inside it, the key
    [rotate_to_next] returns is the one [get_current_key] returns right
    after it. *)
Theorem rotate_then_get_current_key (h : heap) :
  api_keys (self h) <> [] ->
  current_index (self h) < length (api_keys (self h)) ->
  exists key h',
    rotate_to_next h = (Ret (Some key), h') /\
    get_current_key h' = (Ret key, h').
Proof.
  intros Hne Hlt.
  destruct (rotate_to_next_leaves_current h Hne Hlt)
    as (key & h' & Hrot & Hget & _).
  now exists key, h'.
Qed.

Lemma rotate_then_get_current_key_witness :
  exists key h',
    rotate_to_next (new pool3 []) = (Ret (Some key), h') /\
    get_current_key h' = (Ret key, h').
Proof.
  apply (rotate_then_get_current_key (new pool3 [])).
  - vm_compute. discriminate.
  - vm_compute. lia.
Defined.

(** X8. For a manager built by [__init__] and rotated any number of
    times, on a pool that is not empty, the number of the current key is
    between 1 and the number of keys, which is that of the keys loaded;
    reading the two changes nothing. *)
Theorem key_number_in_range (env : environment) (logged : list log_record)
    (k : nat) :
  let h := rotate_times k (new env logged) in
  api_keys (self h) <> [] ->
  exists n total,
    get_key_number h = (Ret n, h) /\
    get_total_keys h = (Ret total, h) /\
    1 <= n <= total /\ total = length (first_source env).
Proof.
  intros h Hne. pose proof (current_index_valid env logged k Hne) as Hlt.
  fold h in Hlt. eexists _, _. split; [reflexivity|]. split; [reflexivity|].
  split; [lia|]. subst h. now rewrite rotate_times_api_keys, init_api_keys.
Qed.

Lemma key_number_in_range_witness :
  exists n total,
    get_key_number (rotate_times 4 (new pool3 [])) =
      (Ret n, rotate_times 4 (new pool3 [])) /\
    get_total_keys (rotate_times 4 (new pool3 [])) =
      (Ret total, rotate_times 4 (new pool3 [])) /\
    1 <= n <= total /\ total = length (first_source pool3).
Proof.
  apply (key_number_in_range pool3 [] 4). vm_compute. discriminate.
Defined.

(** X9. The global manager is built once. The first call of
    [get_api_key_manager] builds it from the environment of that moment
    and always succeeds; a later call returns the same manager and leaves
    the module as it is, whatever the environment has become. *)
Theorem get_api_key_manager_once (env env' : environment)
    (logged : list log_record) :
  let first := get_api_key_manager env
                 {| _api_key_manager := None; module_logger := logged |} in
  fst first = Ret (self (new env logged)) /\
  _api_key_manager (snd first) = Some (self (new env logged)) /\
  get_api_key_manager env' (snd first)
    = (Ret (self (new env logged)), snd first).
Proof.
  destruct (init_runs env logged) as (h & Hrun & _).
  assert (new env logged = h) as Hnew by (unfold new; now rewrite Hrun).
  unfold get_api_key_manager at 1. cbn [_api_key_manager module_logger].
  rewrite Hrun, Hnew. cbn [fst snd _api_key_manager]. repeat split.
Qed.

(** X10. What a call on the global manager changes is there for the next
    call: after [get_api_key_manager().rotate_to_next()] on a module
    whose manager has a pool that is not empty,
    [get_api_key_manager().get_current_key()] returns the key the
    rotation returned, whatever the environment has become. *)
Theorem rotation_kept_by_module (env env' : environment)
    (logged : list log_record) :
  first_source env <> [] ->
  exists key ms,
    on_manager env rotate_to_next
      {| _api_key_manager := None; module_logger := logged |}
      = (Ret (Some key), ms) /\
    fst (on_manager env' get_current_key ms) = Ret key.
Proof.
  intros Hne.
  destruct (init_runs env logged) as (h & Hrun & H0 & _).
  assert (new env logged = h) as Hnew by (unfold new; now rewrite Hrun).
  pose proof (init_api_keys env logged) as Hkeys. rewrite Hnew in Hkeys.
  destruct (rotate_to_next_leaves_current
              {| self := self h; logger := logger h |})
    as (key & h' & Hrot & Hget & _).
  { cbn [self]. now rewrite Hkeys. }
  { cbn [self]. rewrite H0, Hkeys.
    destruct (first_source env); [congruence|cbn; lia]. }
  exists key. eexists. unfold on_manager, bind.
  unfold get_api_key_manager at 1. cbn [_api_key_manager module_logger].
  rewrite Hrun. cbn [module_logger]. rewrite Hrot. split; [reflexivity|].
  unfold get_api_key_manager. cbn [_api_key_manager module_logger].
  destruct h' as [m' l']. cbn [self logger] in *. now rewrite Hget.
Qed.

Lemma rotation_kept_by_module_witness :
  exists key ms,
    on_manager pool3 rotate_to_next
      {| _api_key_manager := None; module_logger := [] |}
      = (Ret (Some key), ms) /\
    fst (on_manager placeholder_in_environ get_current_key ms) = Ret key.
Proof.
  apply (rotation_kept_by_module pool3 placeholder_in_environ []).
  vm_compute. discriminate.
Defined.

End api_key_manager_more.

(** ** The text extraction *)

Module extraction_facts.
Import app.

Lemma truthy_nonempty (s : pystr) : truthy s = true <-> s <> [].
Proof. destruct s; cbn; split; congruence. Qed.

(** A failing page ends the loop over the pages with its exception,
    whatever was read before it. *)
Lemma read_pages_raises pages e text :
  PageRaises e ∈ pages -> exists e', read_pages pages text = Raise e'.
Proof.
  revert text. induction pages as [|[e0|t] pages IH]; intros text Hin.
  - now apply elem_of_nil in Hin.
  - now exists e0.
  - apply elem_of_cons in Hin as [Hin|Hin]; [discriminate|].
    cbn. now apply IH.
Qed.

(** When no page fails the loop returns the texts of the pages in order, a
    page without text adding nothing. *)
Lemma read_pages_texts (texts : list (option pystr)) text :
  read_pages (PageText <$> texts) text
  = Ret (text ++ mjoin (default [] <$> texts)).
Proof.
  revert text. induction texts as [|t texts IH]; intros text; cbn.
  - now rewrite app_nil_r.
  - rewrite IH. now rewrite <- app_assoc.
Qed.

(** What a strategy hands back is a success with non-blank text. *)
Lemma except_pass_pdf_strategy d text success error :
  except_pass (pdf_strategy d) = Some (text, success, error) ->
  success = true /\ error = None /\ truthy (strip text) = true.
Proof.
  destruct d as [e|pages]; cbn; [discriminate|].
  destruct (read_pages pages []) as [t|e]; cbn; [|discriminate].
  destruct (truthy (strip t)) eqn:E; cbn; [|discriminate].
  now intros [= <- <- <-].
Qed.

Lemma extract_returns PdfReader pdfplumber_open Document decode f :
  exists r : extraction,
    extract_text_from_file PdfReader pdfplumber_open Document decode f = Ret r.
Proof.
  unfold extract_text_from_file, catch.
  destruct (extract_body _ _ _ _ f) as [r|e]; now eexists.
Qed.

Section WithLibraries.
Variable PdfReader : list byte -> pdf.
Variable pdfplumber_open : list byte -> pdf.
Variable Document : list byte -> result (list pystr).
Variable decode : list byte -> result pystr.

Let extract_body := extract_body PdfReader pdfplumber_open Document decode.
Let extract_text_from_file :=
  extract_text_from_file PdfReader pdfplumber_open Document decode.

Lemma extract_body_success f text error :
  extract_body f = Ret (text, true, error) -> truthy (strip text) = true.
Proof.
  unfold extract_body, app.extract_body.
  case_bool_decide as Hpdf.
  - destruct (except_pass (pdf_strategy (PdfReader _))) as [[[t s] e]|] eqn:EA.
    { intros [= -> -> ->]. now apply except_pass_pdf_strategy in EA. }
    destruct (except_pass (pdf_strategy (pdfplumber_open _)))
      as [[[t s] e]|] eqn:EB.
    { intros [= -> -> ->]. now apply except_pass_pdf_strategy in EB. }
    discriminate.
  - unfold mbind, result_bind, mret, result_ret, catch.
    intros H. repeat case_match; simplify_eq; done.
Qed.

(** C8. Whenever the extraction reports success, the text it returns is
    not empty after [strip()]. *)
Theorem extract_success_text_nonblank (f : UploadedFile) (text : pystr)
    (error : option pystr) :
  extract_text_from_file f = Ret (text, true, error) ->
  strip text <> [].
Proof.
  unfold extract_text_from_file, app.extract_text_from_file, catch.
  fold (extract_body f).
  destruct (extract_body f) as [[[t s] e]|e] eqn:E; [|discriminate].
  intros [= -> -> ->]. apply truthy_nonempty.
  now apply extract_body_success in E.
Qed.

(** C10. The extraction returns a triple for every input and raises
    nothing: what the branches return is returned as it is, and an
    exception that leaves them becomes the failure triple whose reason
    is "Unexpected error: " followed by [str(e)]. *)
Theorem extract_text_from_file_total (f : UploadedFile) :
  exists r : extraction,
    extract_text_from_file f = Ret r /\
    (forall r', extract_body f = Ret r' -> r = r') /\
    (forall e, extract_body f = Raise e ->
       r = ([], false, Some (lit "Unexpected error: " ++ exn_str e))).
Proof.
  unfold extract_text_from_file, app.extract_text_from_file, catch.
  fold (extract_body f).
  destruct (extract_body f) as [r|e]; eexists; split; try reflexivity;
    split; congruence.
Qed.

(** The PDF branch tries the first library, then the second, and a
    library counts only when it reads every page to a non-blank text. *)
Lemma extract_pdf f :
  type f = Some (lit "application/pdf") ->
  extract_text_from_file f =
  Ret (match except_pass (pdf_strategy (PdfReader (getvalue f))) with
       | Some r => r
       | None =>
           match except_pass (pdf_strategy (pdfplumber_open (getvalue f))) with
           | Some r => r
           | None => no_pdf_text
           end
       end).
Proof.
  intros Hty. unfold extract_text_from_file, app.extract_text_from_file,
    app.extract_body.
  rewrite bool_decide_eq_true_2 by exact Hty.
  now repeat case_match.
Qed.

Lemma pdf_strategy_raising_page pages e :
  PageRaises e ∈ pages -> except_pass (pdf_strategy (Pdf pages)) = None.
Proof.
  intros Hin. destruct (read_pages_raises pages e [] Hin) as [e' He'].
  cbn. now rewrite He'.
Qed.

Lemma pdf_strategy_texts texts :
  except_pass (pdf_strategy (Pdf (PageText <$> texts))) =
  let text := mjoin (default [] <$> texts) in
  if truthy (strip text) then Some (text, true, None) else None.
Proof.
  cbn. rewrite read_pages_texts. cbn. now destruct (truthy _).
Qed.

(** A list of pages has one that raises, or every page gives its text. *)
Lemma pages_cases (pages : list page) :
  (exists e, PageRaises e ∈ pages)
  \/ exists texts, pages = PageText <$> texts.
Proof.
  induction pages as [|[e|t] pages IH].
  - right. now exists [].
  - left. exists e. apply list_elem_of_here.
  - destruct IH as [[e He]|[texts ->]].
    + left. exists e. now apply list_elem_of_further.
    + right. now exists (t :: texts).
Qed.

(** A library that reads the document to a text hands that text back. *)
Lemma reads_every_page_strategy d text :
  reads_every_page d text ->
  except_pass (pdf_strategy d) = Some (text, true, None).
Proof.
  intros (texts & -> & -> & Hstrip). rewrite pdf_strategy_texts. cbv zeta.
  apply truthy_nonempty in Hstrip. now rewrite Hstrip.
Qed.

(** What a library hands back, it has read from every page. *)
Lemma strategy_reads_every_page d r :
  except_pass (pdf_strategy d) = Some r ->
  exists text, r = (text, true, None) /\ reads_every_page d text.
Proof.
  destruct d as [e|pages]; [discriminate|].
  destruct (pages_cases pages) as [[e He]|[texts ->]].
  - now rewrite (pdf_strategy_raising_page pages e He).
  - rewrite pdf_strategy_texts. cbv zeta.
    destruct (truthy (strip (mjoin (default [] <$> texts)))) eqn:E;
      [|discriminate].
    intros [= <-]. eexists. split; [reflexivity|].
    exists texts. repeat split. now apply truthy_nonempty.
Qed.

(** A library is given up exactly when it does not read the document. *)
Lemma strategy_given_up d :
  except_pass (pdf_strategy d) = None <->
  forall text, ~ reads_every_page d text.
Proof.
  split.
  - intros Hnone text Hreads.
    apply reads_every_page_strategy in Hreads. congruence.
  - intros Hno. destruct (except_pass (pdf_strategy d)) as [r|] eqn:E;
      [|reflexivity].
    apply strategy_reads_every_page in E as (text & _ & Hreads).
    now destruct (Hno text).
Qed.

(** C2, as the code has it. A library reads a PDF when it opens it, none
    of its pages raises and the texts of all the pages, joined in their
    order, are not blank; a page without text is skipped, a page that
    raises is not. The first library that reads the document gives the
    result, the second being asked only when the first does not read
    it, and the document fails exactly when neither reads it. A page
    that raises in the first library gives up that library with the text
    read so far, and the result is the second library's: the texts of
    all its pages when none raises and they are not blank, the failure
    "Could not extract text from PDF" otherwise. *)
Theorem extract_pdf_failing_page (f : UploadedFile) :
  type f = Some (lit "application/pdf") ->
  let first := PdfReader (getvalue f) in
  let second := pdfplumber_open (getvalue f) in
  (forall text, reads_every_page first text ->
     extract_text_from_file f = Ret (text, true, None)) /\
  (forall text, (forall t, ~ reads_every_page first t) ->
     reads_every_page second text ->
     extract_text_from_file f = Ret (text, true, None)) /\
  (extract_text_from_file f = Ret no_pdf_text <->
     (forall t, ~ reads_every_page first t) /\
     (forall t, ~ reads_every_page second t)) /\
  (forall pagesA e, first = Pdf pagesA -> PageRaises e ∈ pagesA ->
     (forall t, ~ reads_every_page first t) /\
     match second with
     | PdfRaises _ => extract_text_from_file f = Ret no_pdf_text
     | Pdf pagesB =>
         (forall e', PageRaises e' ∈ pagesB ->
            extract_text_from_file f = Ret no_pdf_text) /\
         (forall texts, pagesB = PageText <$> texts ->
            let text := mjoin (default [] <$> texts) in
            extract_text_from_file f =
            Ret (if truthy (strip text) then (text, true, None)
                 else no_pdf_text))
     end) /\
  (forall pagesB e, second = Pdf pagesB -> PageRaises e ∈ pagesB ->
     (forall t, ~ reads_every_page first t) ->
     extract_text_from_file f = Ret no_pdf_text).
Proof.
  intros Hty. cbv zeta. rewrite (extract_pdf f Hty).
  split; [|split; [|split; [|split]]].
  - intros text Hreads.
    now rewrite (reads_every_page_strategy _ text Hreads).
  - intros text Hno Hreads. apply strategy_given_up in Hno. rewrite Hno.
    now rewrite (reads_every_page_strategy _ text Hreads).
  - rewrite <- !strategy_given_up.
    destruct (except_pass (pdf_strategy (PdfReader (getvalue f))))
      as [r|] eqn:E.
    { apply strategy_reads_every_page in E as (text & -> & _).
      split; [discriminate|]. now intros [? _]. }
    destruct (except_pass (pdf_strategy (pdfplumber_open (getvalue f))))
      as [r|] eqn:E'; [|easy].
    apply strategy_reads_every_page in E' as (text & -> & _).
    split; [discriminate|]. now intros [_ ?].
  - intros pagesA e HA Hin.
    split; [apply strategy_given_up; rewrite HA;
            now apply (pdf_strategy_raising_page pagesA e)|].
    rewrite HA, (pdf_strategy_raising_page pagesA e Hin).
    destruct (pdfplumber_open (getvalue f)) as [eB|pagesB]; [reflexivity|].
    split.
    + intros e' Hin'. now rewrite (pdf_strategy_raising_page pagesB e' Hin').
    + intros texts ->. rewrite pdf_strategy_texts. cbv zeta.
      now destruct (truthy _).
  - intros pagesB e HB Hin Hno. apply strategy_given_up in Hno.
    rewrite Hno, HB. now rewrite (pdf_strategy_raising_page pagesB e Hin).
Qed.
End WithLibraries.

(** C2, as the specification words it, fails on a document whose second
    page raises in both libraries: the text of page one is lost and the
    extraction reports a failure. *)
Lemma extract_second_page_fails :
  extract_text_from_file second_page_fails second_page_fails not_a_docx
    decode_ascii cv_pdf = Ret no_pdf_text /\
  extract_text_from_file second_page_fails second_page_fails not_a_docx
    decode_ascii cv_pdf <> Ret (page_one, true, None).
Proof. split; [reflexivity|discriminate]. Qed.

Lemma extract_pdf_failing_page_witness :
  extract_text_from_file second_page_fails both_pages_read not_a_docx
    decode_ascii cv_pdf = Ret (page_one ++ page_two, true, None).
Proof.
  destruct (extract_pdf_failing_page second_page_fails both_pages_read
              not_a_docx decode_ascii cv_pdf eq_refl)
    as (_ & _ & _ & H & _).
  destruct (H [PageText (Some page_one); PageRaises damaged] damaged eq_refl)
    as [_ [_ Hsecond]].
  - apply list_elem_of_further, list_elem_of_here.
  - rewrite (Hsecond [Some page_one; Some page_two] eq_refl). reflexivity.
Defined.

Lemma extract_success_text_nonblank_witness :
  extract_text_from_file second_page_fails both_pages_read not_a_docx
    decode_ascii cv_txt = Ret (lit "Jane Doe", true, None) /\
  strip (lit "Jane Doe") <> [].
Proof.
  split; [reflexivity|].
  apply (extract_success_text_nonblank second_page_fails both_pages_read
           not_a_docx decode_ascii cv_txt (lit "Jane Doe") None).
  reflexivity.
Defined.

Lemma extract_text_from_file_total_witness :
  extract_text_from_file second_page_fails both_pages_read not_a_docx
    decode_ascii untyped =
  Ret ([], false,
       Some (lit "Unexpected error: argument of type 'NoneType' is not iterable")).
Proof.
  destruct (extract_text_from_file_total second_page_fails both_pages_read
              not_a_docx decode_ascii untyped) as (r & Hr & _ & Hraise).
  rewrite Hr. f_equal.
  apply (Hraise (Exn "TypeError"
                     (lit "argument of type 'NoneType' is not iterable"))).
  reflexivity.
Defined.

End extraction_facts.

(** ** More on the text extraction *)

Module extraction_more.
Import app extraction_facts.

(** A string is blank when [strip()] leaves nothing of it, that is when
    all its characters are spaces. *)
Lemma lstrip_nil (s : pystr) :
  lstrip s = [] <-> Forall (fun c => isspace c = true) s.
Proof.
  induction s as [|c s IH]; cbn.
  - split; [constructor|reflexivity].
  - destruct (isspace c) eqn:Ec.
    + rewrite IH. split; [now constructor|]. now inversion 1.
    + split; [discriminate|]. inversion 1; congruence.
Qed.

Lemma lstrip_spaces (s : pystr) :
  Forall (fun c => isspace c = true) (lstrip s) -> lstrip s = [].
Proof.
  induction s as [|c s IH]; cbn; [reflexivity|].
  destruct (isspace c) eqn:Ec; [exact IH|]. inversion 1; congruence.
Qed.

Lemma strip_nil (s : pystr) :
  strip s = [] <-> Forall (fun c => isspace c = true) s.
Proof.
  unfold strip, rstrip. split.
  - intros H. apply (f_equal reverse) in H. rewrite reverse_involutive in H.
    cbn in H. apply lstrip_nil in H. apply Forall_reverse in H.
    rewrite reverse_involutive in H.
    apply lstrip_nil. now apply lstrip_spaces.
  - intros H. apply lstrip_nil in H. rewrite H. reflexivity.
Qed.

Lemma join_spaces (parts : list pystr) :
  Forall (fun p => Forall (fun c => isspace c = true) p) parts ->
  Forall (fun c => isspace c = true) (join newline parts).
Proof.
  induction 1 as [|p parts Hp Hparts IH]; [constructor|].
  cbn [join]. destruct parts as [|q parts]; [exact Hp|].
  apply Forall_app. split; [exact Hp|].
  apply Forall_app. split; [|exact IH]. now repeat constructor.
Qed.

Lemma mjoin_spaces (texts : list (option pystr)) :
  Forall (fun t => Forall (fun c => isspace c = true) (default [] t)) texts ->
  Forall (fun c => isspace c = true) (mjoin (default [] <$> texts)).
Proof.
  induction 1 as [|t texts Ht Htexts IH]; [constructor|].
  cbn. apply Forall_app. now split.
Qed.

Lemma truthy_strip_nil (s : pystr) :
  Forall (fun c => isspace c = true) s -> truthy (strip s) = false.
Proof. intros H. apply strip_nil in H. now rewrite H. Qed.

Section WithLibraries.
Variable PdfReader : list byte -> pdf.
Variable pdfplumber_open : list byte -> pdf.
Variable Document : list byte -> result (list pystr).
Variable decode : list byte -> result pystr.

Let extract_body := extract_body PdfReader pdfplumber_open Document decode.
Let extract_text_from_file :=
  extract_text_from_file PdfReader pdfplumber_open Document decode.

Lemma extract_body_shape f text success error :
  extract_body f = Ret (text, success, error) ->
  if success then error = None
  else text = [] /\ exists reason, error = Some reason /\ known_reason reason.
Proof.
  unfold extract_body, app.extract_body, known_reason.
  case_bool_decide as Hpdf.
  - destruct (except_pass (pdf_strategy (PdfReader _))) as [[[t s] e]|] eqn:EA.
    { intros [= -> -> ->].
      now apply except_pass_pdf_strategy in EA as (-> & -> & _). }
    destruct (except_pass (pdf_strategy (pdfplumber_open _)))
      as [[[t s] e]|] eqn:EB.
    { intros [= -> -> ->].
      now apply except_pass_pdf_strategy in EB as (-> & -> & _). }
    intros [= <- <- <-]. split; [reflexivity|]. eexists. split; [reflexivity|].
    now left.
  - unfold mbind, result_bind, mret, result_ret, catch. intros H.
    repeat case_match; simplify_eq; try reflexivity;
      (split; [reflexivity|]); (eexists; split; [reflexivity|]); eauto 10.
Qed.

(** X11. The triple the extraction returns has one of two shapes: a
    success without an error, or a failure with the empty text and one
    of six reasons, of which three quote the exception they report. *)
Theorem extract_result_shape (f : UploadedFile) (text : pystr)
    (success : bool) (error : option pystr) :
  extract_text_from_file f = Ret (text, success, error) ->
  if success then error = None
  else text = [] /\ exists reason, error = Some reason /\ known_reason reason.
Proof.
  unfold extract_text_from_file, app.extract_text_from_file, catch.
  fold (extract_body f).
  destruct (extract_body f) as [[[t s] e]|e] eqn:E.
  - intros [= -> -> ->]. now apply extract_body_shape in E.
  - intros [= <- <- <-]. split; [reflexivity|]. eexists. split; [reflexivity|].
    unfold known_reason. eauto 10.
Qed.

(** X12. When the first PDF library reads every page and the text is not
    blank, the extraction returns that text, the pages in order and a page
    without text adding nothing; the second library plays no part. *)
Theorem extract_pdf_first_library (f : UploadedFile)
    (texts : list (option pystr)) :
  type f = Some (lit "application/pdf") ->
  PdfReader (getvalue f) = Pdf (PageText <$> texts) ->
  strip (mjoin (default [] <$> texts)) <> [] ->
  extract_text_from_file f = Ret (mjoin (default [] <$> texts), true, None).
Proof.
  intros Hty HA Hne. unfold extract_text_from_file.
  rewrite (extract_pdf _ _ _ _ f Hty), HA, pdf_strategy_texts. cbv zeta.
  apply truthy_nonempty in Hne. now rewrite Hne.
Qed.

(** X13. A PDF fails with one reason only: what the libraries raise is
    not reported, and the handler of unexpected errors is not reached. *)
Theorem extract_pdf_failure (f : UploadedFile) (text : pystr)
    (error : option pystr) :
  type f = Some (lit "application/pdf") ->
  extract_text_from_file f = Ret (text, false, error) ->
  text = [] /\ error = Some (lit "Could not extract text from PDF").
Proof.
  intros Hty. unfold extract_text_from_file.
  rewrite (extract_pdf _ _ _ _ f Hty).
  destruct (except_pass (pdf_strategy (PdfReader _))) as [[[t s] e]|] eqn:EA.
  { intros [= -> -> ->].
    now apply except_pass_pdf_strategy in EA as (? & _). }
  destruct (except_pass (pdf_strategy (pdfplumber_open _)))
    as [[[t s] e]|] eqn:EB.
  { intros [= -> -> ->].
    now apply except_pass_pdf_strategy in EB as (? & _). }
  now intros [= <- <-].
Qed.

(** X14. The handler of unexpected errors is reached in two cases only:
    the type of the object is [None], or its name is [None] while its
    type is neither that of a PDF nor one of a Word document. *)
Theorem extract_body_raises_iff (f : UploadedFile) :
  (exists e, extract_body f = Raise e) <->
  type f = None \/
  (exists t, type f = Some t /\ t <> lit "application/pdf" /\
             contains (lit "wordprocessingml") t = false /\ name f = None).
Proof.
  unfold extract_body, app.extract_body.
  case_bool_decide as Hpdf.
  - split.
    + intros [e He]. repeat case_match; discriminate.
    + intros [Hnone|(t & Ht & Hne & _)]; congruence.
  - unfold mbind, result_bind, mret, result_ret, catch, py_in, py_endswith.
    destruct (type f) as [t|] eqn:Ht.
    2:{ split; [now left|]. intros _. now eexists. }
    destruct (contains (lit "wordprocessingml") t) eqn:Hc.
    { split.
      - intros [e He]. repeat case_match; discriminate.
      - intros [?|(t' & Ht' & _ & Hc' & _)]; simplify_eq; congruence. }
    destruct (name f) as [n|] eqn:Hn.
    { split.
      - intros [e He]. repeat case_match; discriminate.
      - intros [?|(t' & _ & _ & _ & ?)]; congruence. }
    split; [|intros _; now eexists].
    intros _. right. exists t. repeat split; congruence.
Qed.

(** X15. A document without visible text is refused in every format: a
    text file whose characters are all spaces, a Word document whose
    paragraphs are, and a PDF that both libraries read to pages that are
    or that have no text. An empty file, an empty list of paragraphs and
    a PDF without pages are among them. *)
Theorem extract_blank_document (f : UploadedFile) (t : pystr) :
  type f = Some t ->
  (t = lit "application/pdf" ->
   forall textsA textsB,
     PdfReader (getvalue f) = Pdf (PageText <$> textsA) ->
     pdfplumber_open (getvalue f) = Pdf (PageText <$> textsB) ->
     Forall (fun p => Forall (fun c => isspace c = true) (default [] p))
            (textsA ++ textsB) ->
     extract_text_from_file f = Ret no_pdf_text) /\
  (t <> lit "application/pdf" ->
   forall n paragraphs,
     name f = Some n ->
     contains (lit "wordprocessingml") t || endswith n (lit ".docx") = true ->
     Document (getvalue f) = Ret paragraphs ->
     Forall (fun p => Forall (fun c => isspace c = true) p) paragraphs ->
     extract_text_from_file f
       = Ret ([], false, Some (lit "DOCX file is empty"))) /\
  (t <> lit "application/pdf" ->
   forall n text,
     name f = Some n ->
     contains (lit "wordprocessingml") t || endswith n (lit ".docx") = false ->
     decode (getvalue f) = Ret text ->
     Forall (fun c => isspace c = true) text ->
     extract_text_from_file f
       = Ret ([], false, Some (lit "Text file is empty"))).
Proof.
  intros Hty. split; [|split].
  - intros -> textsA textsB HA HB Hblank.
    apply Forall_app in Hblank as [HbA HbB].
    unfold extract_text_from_file.
    rewrite (extract_pdf _ _ _ _ f Hty), HA, HB, !pdf_strategy_texts.
    cbv zeta.
    now rewrite !truthy_strip_nil by now apply mjoin_spaces.
  - intros Hne n paragraphs Hn Hdocx HD Hblank.
    unfold extract_text_from_file, app.extract_text_from_file,
      app.extract_body.
    rewrite bool_decide_eq_false_2 by congruence.
    rewrite Hty, Hn, HD. cbn [py_in py_endswith].
    unfold mbind, result_bind, mret, result_ret, catch.
    apply orb_true_iff in Hdocx.
    rewrite (truthy_strip_nil _ (join_spaces _ Hblank)).
    destruct (contains (lit "wordprocessingml") t); [reflexivity|].
    destruct Hdocx as [Hc | Hc]; [discriminate|now rewrite Hc].
  - intros Hne n text Hn Hdocx HD Hblank.
    unfold extract_text_from_file, app.extract_text_from_file,
      app.extract_body.
    rewrite bool_decide_eq_false_2 by congruence.
    rewrite Hty, Hn, HD. cbn [py_in py_endswith].
    unfold mbind, result_bind, mret, result_ret, catch.
    apply orb_false_iff in Hdocx as [-> ->].
    now rewrite (truthy_strip_nil _ Hblank).
Qed.
End WithLibraries.

Lemma extract_result_shape_witness :
  exists reason,
    Some (lit "Text file is empty") = Some reason /\ reason <> [].
Proof.
  destruct (extract_result_shape second_page_fails both_pages_read not_a_docx
              decode_ascii blank_txt [] false
              (Some (lit "Text file is empty")) eq_refl)
    as (_ & reason & Hreason & _).
  exists reason. split; [exact Hreason|].
  injection Hreason as <-. discriminate.
Defined.

Lemma extract_pdf_first_library_witness :
  extract_text_from_file both_pages_read second_page_fails not_a_docx
    decode_ascii cv_pdf = Ret (page_one ++ page_two, true, None).
Proof.
  rewrite (extract_pdf_first_library both_pages_read second_page_fails
             not_a_docx decode_ascii cv_pdf [Some page_one; Some page_two]
             eq_refl eq_refl); [reflexivity|].
  vm_compute. discriminate.
Defined.

Lemma extract_pdf_failure_witness :
  extract_text_from_file second_page_fails second_page_fails not_a_docx
    decode_ascii cv_pdf = Ret no_pdf_text /\
  snd no_pdf_text = Some (lit "Could not extract text from PDF").
Proof.
  split; [reflexivity|].
  apply (extract_pdf_failure second_page_fails second_page_fails not_a_docx
           decode_ascii cv_pdf [] (snd no_pdf_text) eq_refl eq_refl).
Defined.

Lemma extract_blank_document_witness :
  extract_text_from_file second_page_fails both_pages_read not_a_docx
    decode_ascii blank_txt = Ret ([], false, Some (lit "Text file is empty")).
Proof.
  refine (proj2 (proj2 (extract_blank_document second_page_fails
                          both_pages_read not_a_docx decode_ascii blank_txt
                          (lit "text/plain") eq_refl))
            _ (lit "blank.txt") (lit "   ") eq_refl eq_refl eq_refl _).
  - vm_compute. discriminate.
  - repeat constructor.
Defined.

Lemma extract_body_raises_iff_witness :
  exists e, extract_body second_page_fails both_pages_read not_a_docx
              decode_ascii untyped = Raise e.
Proof.
  apply (extract_body_raises_iff second_page_fails both_pages_read
           not_a_docx decode_ascii untyped).
  left. reflexivity.
Defined.

End extraction_more.

(** ** The batch loop *)

Module batch_facts.
Import app.

Lemma status_lines_snoc events e :
  status_lines (events ++ [e]) =
  status_lines events ++
    match e with status_text msg => [msg] | _ => [] end.
Proof.
  unfold status_lines. rewrite omap_app. cbn. now destruct e.
Qed.

Lemma emit_run e s :
  emit e s =
  (Ret tt,
   {| successful := successful s; failed := failed s;
      failed_files := failed_files s; all_results := all_results s;
      current_analysis := current_analysis s; ui := ui s ++ [e] |}).
Proof. reflexivity. Qed.

Section WithCollaborators.
Variable PdfReader : list byte -> pdf.
Variable pdfplumber_open : list byte -> pdf.
Variable Document : list byte -> result (list pystr).
Variable decode : list byte -> result pystr.
Variable run_complete_analysis :
  nat -> pystr -> job_requirements -> analysis_outcome.
Variable now : nat -> pystr.
Variable widgets : sidebar.

Let process_file :=
  process_file PdfReader pdfplumber_open Document decode
    run_complete_analysis now widgets.
Let analyze_all :=
  analyze_all PdfReader pdfplumber_open Document decode
    run_complete_analysis now widgets.
Let item_failure :=
  item_failure PdfReader pdfplumber_open Document decode
    run_complete_analysis widgets.

Ltac run_process_file :=
  unfold process_file, app.process_file, emit, record_failure, record_success,
    dict_getitem;
  run_py.

Ltac finish_state :=
  cbn [ui successful failed failed_files all_results current_analysis negb];
  rewrite <- ?app_assoc; reflexivity.

(** The file cannot be read: one more failure, with the error of the
    extraction as the reason. *)
Lemma process_file_not_extracted total idx f s text error :
  extract_text_from_file PdfReader pdfplumber_open Document decode f
    = Ret (text, false, error) ->
  process_file total idx f s =
  (Ret tt,
   {| successful := successful s; failed := failed s + 1;
      failed_files := failed_files s ++ [fmt (name f) ++ lit " - " ++ fmt error];
      all_results := all_results s;
      current_analysis := current_analysis s;
      ui := ui s ++
            [status_text (processing total idx f);
             st_error (cross_mark ++ lit " " ++ fmt (name f) ++ lit ": "
                       ++ fmt error);
             progress (idx + 1) total] |}).
Proof. intros E. run_process_file. rewrite E. finish_state. Qed.

(** The analysis raises: one more failure, with the exception as the
    reason. *)
Lemma process_file_analysis_raises total idx f s text error e :
  extract_text_from_file PdfReader pdfplumber_open Document decode f
    = Ret (text, true, error) ->
  run_complete_analysis idx text (the_job_requirements widgets)
    = AnalysisRaises e ->
  process_file total idx f s =
  (Ret tt,
   {| successful := successful s; failed := failed s + 1;
      failed_files :=
        failed_files s
        ++ [fmt (name f) ++ lit " - Analysis error: " ++ exn_str e];
      all_results := all_results s;
      current_analysis := current_analysis s;
      ui := ui s ++
            [status_text (processing total idx f);
             st_info (check_mark ++ lit " Extracted "
                      ++ str_of_nat (length text)
                      ++ lit " characters from " ++ fmt (name f));
             st_spinner (robot ++ lit " Analyzing " ++ fmt (name f)
                         ++ lit "...");
             st_error (cross_mark ++ lit " " ++ fmt (name f)
                       ++ lit ": Analysis error - " ++ exn_str e);
             progress (idx + 1) total] |}).
Proof. intros E1 E2. run_process_file. rewrite E1, E2. finish_state. Qed.

(** The analysis answers, and the answer is not a success: one more
    failure, with the error message of the answer as the reason. *)
Lemma process_file_not_success total idx f s text error answer :
  extract_text_from_file PdfReader pdfplumber_open Document decode f
    = Ret (text, true, error) ->
  run_complete_analysis idx text (the_job_requirements widgets)
    = AnalysisReturns answer ->
  is_success answer = false ->
  process_file total idx f s =
  (Ret tt,
   {| successful := successful s; failed := failed s + 1;
      failed_files :=
        failed_files s ++ [fmt (name f) ++ lit " - " ++ error_msg answer];
      all_results := all_results s;
      current_analysis := current_analysis s;
      ui := ui s ++
            [status_text (processing total idx f);
             st_info (check_mark ++ lit " Extracted "
                      ++ str_of_nat (length text)
                      ++ lit " characters from " ++ fmt (name f));
             st_spinner (robot ++ lit " Analyzing " ++ fmt (name f)
                         ++ lit "...");
             st_error (cross_mark ++ lit " " ++ fmt (name f) ++ lit ": "
                       ++ error_msg answer);
             progress (idx + 1) total] |}).
Proof.
  intros E1 E2 E3. run_process_file. rewrite E1, E2, E3. finish_state.
Qed.

(** The answer is a success and has its two parts: one more success, and
    the entry made of them is appended to the results. *)
Lemma process_file_stored total idx f s text error answer parsed insight :
  extract_text_from_file PdfReader pdfplumber_open Document decode f
    = Ret (text, true, error) ->
  run_complete_analysis idx text (the_job_requirements widgets)
    = AnalysisReturns answer ->
  is_success answer = true ->
  answer ≫= r_parsed_resume = Some parsed ->
  answer ≫= r_analysis = Some insight ->
  process_file total idx f s =
  (Ret tt,
   {| successful := successful s + 1; failed := failed s;
      failed_files := failed_files s;
      all_results :=
        all_results s ++ [new_entry widgets parsed insight (now idx) f];
      current_analysis :=
        Some {| cur_parsed := parsed; cur_analysis := insight;
                cur_resume_name := name f |};
      ui := ui s ++
            [status_text (processing total idx f);
             st_info (check_mark ++ lit " Extracted "
                      ++ str_of_nat (length text)
                      ++ lit " characters from " ++ fmt (name f));
             st_spinner (robot ++ lit " Analyzing " ++ fmt (name f)
                         ++ lit "...");
             st_success (check_mark ++ lit " " ++ fmt (name f)
                         ++ lit " - Analysis complete!");
             progress (idx + 1) total] |}).
Proof.
  intros E1 E2 E3 E4 E5. run_process_file.
  rewrite E1, E2, E3. fold (answer ≫= r_parsed_resume). rewrite E4.
  fold (answer ≫= r_analysis). rewrite E5. finish_state.
Qed.

(** The answer says it is a success and lacks one of its parts: the
    [KeyError] leaves the loop. *)
Lemma process_file_aborts total idx f s text error answer :
  extract_text_from_file PdfReader pdfplumber_open Document decode f
    = Ret (text, true, error) ->
  run_complete_analysis idx text (the_job_requirements widgets)
    = AnalysisReturns answer ->
  is_success answer = true ->
  answer ≫= r_parsed_resume = None \/ answer ≫= r_analysis = None ->
  exists e s', process_file total idx f s = (Raise e, s')
               /\ exn_class e = "KeyError"%string.
Proof.
  intros E1 E2 E3 E4. run_process_file.
  rewrite E1, E2, E3. fold (answer ≫= r_parsed_resume).
  fold (answer ≫= r_analysis).
  destruct (answer ≫= r_parsed_resume) as [parsed|].
  - destruct E4 as [E4|E4]; [discriminate|]. rewrite E4. now eexists _, _.
  - now eexists _, _.
Qed.

Lemma status_lines_app events events' :
  status_lines (events ++ events') = status_lines events ++ status_lines events'.
Proof. apply omap_app. Qed.

(** What an iteration that ends normally has done: it has shown the file
    in the status line and has counted it once, as a success or as a
    failure with its entry in the list. *)
Lemma process_file_returns total idx f s s' :
  process_file total idx f s = (Ret tt, s') ->
  status_lines (ui s') = status_lines (ui s) ++ [processing total idx f] /\
  match item_failure idx f with
  | None =>
      successful s' = successful s + 1 /\ failed s' = failed s /\
      failed_files s' = failed_files s
  | Some reason =>
      successful s' = successful s /\ failed s' = failed s + 1 /\
      failed_files s' =
        failed_files s ++ [fmt (name f) ++ lit " - " ++ reason]
  end.
Proof.
  unfold item_failure, app.item_failure.
  destruct (extract_text_from_file _ _ _ _ f) as [[[text success] error]|e]
    eqn:E1.
  2:{ run_process_file. rewrite E1. discriminate. }
  destruct success; cbn [negb].
  2:{ rewrite (process_file_not_extracted _ _ _ _ _ _ E1). intros [= <-].
      cbn [ui successful failed failed_files]. now rewrite status_lines_app. }
  destruct (run_complete_analysis idx text _) as [e|answer] eqn:E2.
  { rewrite (process_file_analysis_raises _ _ _ _ _ _ _ E1 E2). intros [= <-].
    cbn [ui successful failed failed_files]. now rewrite status_lines_app. }
  destruct (is_success answer) eqn:E3.
  2:{ rewrite (process_file_not_success _ _ _ _ _ _ _ E1 E2 E3). intros [= <-].
      cbn [ui successful failed failed_files]. now rewrite status_lines_app. }
  destruct (answer ≫= r_parsed_resume) as [parsed|] eqn:E4.
  2:{ destruct (process_file_aborts total idx f s _ _ _ E1 E2 E3 (or_introl E4))
        as (e & s1 & -> & _). discriminate. }
  destruct (answer ≫= r_analysis) as [insight|] eqn:E5.
  2:{ destruct (process_file_aborts total idx f s _ _ _ E1 E2 E3 (or_intror E5))
        as (e & s1 & -> & _). discriminate. }
  rewrite (process_file_stored _ _ _ _ _ _ _ _ _ E1 E2 E3 E4 E5). intros [= <-].
  cbn [ui successful failed failed_files]. now rewrite status_lines_app.
Qed.

(** When the analysis keeps its contract every iteration ends normally. *)
Lemma process_file_ends total idx f s :
  answers_well_formed run_complete_analysis widgets ->
  exists s', process_file total idx f s = (Ret tt, s').
Proof.
  intros Hwf.
  destruct (extraction_facts.extract_returns PdfReader pdfplumber_open
              Document decode f) as [[[text success] error] E1].
  destruct success.
  2:{ rewrite (process_file_not_extracted _ _ _ _ _ _ E1). now eexists. }
  destruct (run_complete_analysis idx text (the_job_requirements widgets))
    as [e|answer] eqn:E2.
  { rewrite (process_file_analysis_raises _ _ _ _ _ _ _ E1 E2). now eexists. }
  destruct (is_success answer) eqn:E3.
  2:{ rewrite (process_file_not_success _ _ _ _ _ _ _ E1 E2 E3). now eexists. }
  destruct (Hwf idx text answer E2 E3) as [[parsed E4] [insight E5]].
  rewrite (process_file_stored _ _ _ _ _ _ _ _ _ E1 E2 E3 E4 E5). now eexists.
Qed.

Let loop (total : nat) (items : list (nat * UploadedFile)) : Py state unit :=
  for_each items (fun '(idx, f) => process_file total idx f).

Let failure_entry :=
  failure_entry PdfReader pdfplumber_open Document decode
    run_complete_analysis widgets.

Lemma loop_returns total items s s' :
  loop total items s = (Ret tt, s') ->
  successful s' =
    successful s
    + length (filter (fun it => item_failure it.1 it.2 = None) items) /\
  failed s' =
    failed s
    + length (filter (fun it => item_failure it.1 it.2 <> None) items) /\
  failed_files s' = failed_files s ++ omap failure_entry items /\
  status_lines (ui s') =
    status_lines (ui s) ++ ((fun it => processing total it.1 it.2) <$> items).
Proof.
  revert s. induction items as [|[idx f] items IH]; intros s.
  - intros [= <-]. cbn. rewrite !app_nil_r. repeat split; lia.
  - unfold loop. cbn [for_each]. unfold bind. fold (loop total items).
    destruct (process_file total idx f s) as [[[]|e] s1] eqn:E; [|discriminate].
    intros Hrest. apply IH in Hrest as (H1 & H2 & H3 & H4).
    apply process_file_returns in E as (E4 & E).
    rewrite H1, H2, H3, H4, E4.
    rewrite !filter_cons. cbn [fmap list_fmap omap list_omap fst snd].
    unfold failure_entry at 2, app.failure_entry. cbn [fst snd].
    fold (item_failure idx f).
    destruct (item_failure idx f) as [reason|]; cbn [mbind option_bind].
    + destruct E as (-> & -> & ->).
      rewrite decide_False by discriminate. rewrite decide_True by discriminate.
      cbn [length]. rewrite <- !app_assoc. repeat split; lia.
    + destruct E as (-> & -> & ->).
      rewrite decide_True by reflexivity.
      rewrite decide_False by (intros H; now apply H).
      cbn [length]. rewrite <- !app_assoc. repeat split; lia.
Qed.

Lemma loop_ends total items s :
  answers_well_formed run_complete_analysis widgets ->
  exists s', loop total items s = (Ret tt, s').
Proof.
  intros Hwf. revert s. induction items as [|[idx f] items IH]; intros s.
  - now exists s.
  - unfold loop. cbn [for_each]. unfold bind. fold (loop total items).
    destruct (process_file_ends total idx f s Hwf) as [s1 ->]. apply IH.
Qed.

(** Lines 312-315: the failed files are written out, one line each. *)
Lemma write_failed_files (entries : list pystr) s :
  for_each entries
    (fun failed_file => emit (st_write (bullet ++ lit " " ++ failed_file))) s
  = (Ret tt,
     {| successful := successful s; failed := failed s;
        failed_files := failed_files s; all_results := all_results s;
        current_analysis := current_analysis s;
        ui := ui s
              ++ ((fun failed_file =>
                     st_write (bullet ++ lit " " ++ failed_file))
                  <$> entries) |}).
Proof.
  revert s. induction entries as [|entry entries IH]; intros s.
  - cbn. rewrite app_nil_r. now destruct s.
  - cbn [for_each]. unfold bind, emit at 1, modify. rewrite IH.
    cbn [ui successful failed failed_files all_results current_analysis
         fmap list_fmap].
    now rewrite <- app_assoc.
Qed.

Lemma status_lines_written (entries : list pystr) :
  status_lines ((fun failed_file =>
                   st_write (bullet ++ lit " " ++ failed_file)) <$> entries)
  = [].
Proof. induction entries as [|entry entries IH]; [reflexivity|exact IH]. Qed.

(** The state in which the loop starts. *)
Let started (s : state) : state :=
  {| successful := 0; failed := 0; failed_files := [];
     all_results := all_results s; current_analysis := current_analysis s;
     ui := ui s ++ [progress 0 1] |}.

(** After the loop the page shows the summary; the counts, the list and
    the results are those the loop has left, and nothing is added to the
    status lines. *)
Lemma analyze_all_after_loop files s s1 :
  loop (length files) (enumerate files) (started s) = (Ret tt, s1) ->
  exists s',
    analyze_all files s = (Ret tt, s') /\
    successful s' = successful s1 /\ failed s' = failed s1 /\
    failed_files s' = failed_files s1 /\ all_results s' = all_results s1 /\
    status_lines (ui s') = status_lines (ui s1).
Proof.
  intros Hloop. unfold analyze_all, app.analyze_all, reset_counters. run_py.
  rewrite emit_run. cbv beta iota. cbn [ui all_results current_analysis].
  fold (started s). fold process_file.
  fold (loop (length files) (enumerate files)). rewrite Hloop. cbv beta iota.
  rewrite !emit_run. cbv beta iota.
  repeat (case_bool_decide; rewrite ?emit_run; cbv beta iota);
    rewrite ?write_failed_files;
    (eexists; split; [reflexivity|]);
    cbn [ui successful failed failed_files all_results current_analysis];
    rewrite ?status_lines_app, ?status_lines_written;
    cbn [status_lines omap list_omap app]; rewrite ?app_nil_r; done.
Qed.

Lemma analyze_all_loop_raises files s e s1 :
  loop (length files) (enumerate files) (started s) = (Raise e, s1) ->
  analyze_all files s = (Raise e, s1).
Proof.
  intros Hloop. unfold analyze_all, app.analyze_all, reset_counters. run_py.
  rewrite emit_run. cbv beta iota. cbn [ui all_results current_analysis].
  fold (started s). fold process_file.
  fold (loop (length files) (enumerate files)). now rewrite Hloop.
Qed.

Lemma length_enumerate_from {A} start (xs : list A) :
  length (enumerate_from start xs) = length xs.
Proof.
  revert start. induction xs as [|x xs IH]; intros start; cbn; [|rewrite IH];
    reflexivity.
Qed.

Lemma length_filter_complement {A} (P : A -> Prop) `{!forall x, Decision (P x)}
    (l : list A) :
  length (filter P l) + length (filter (fun x => ~ P x) l) = length l.
Proof.
  rewrite <- length_app. apply Permutation_length, filter_app_complement.
Qed.

Lemma length_failure_entries items :
  length (omap failure_entry items)
  = length (filter (fun it => item_failure it.1 it.2 <> None) items).
Proof.
  induction items as [|[idx f] items IH]; [reflexivity|].
  rewrite filter_cons. cbn [omap list_omap fst snd].
  unfold failure_entry at 1, app.failure_entry. cbn [fst snd].
  fold (item_failure idx f).
  destruct (item_failure idx f) as [reason|]; cbn [mbind option_bind].
  - rewrite decide_True by discriminate. cbn [length]. now rewrite IH.
  - rewrite decide_False by (intros H; now apply H). exact IH.
Qed.

(** The flag of an entry is the comparison of its score with the
    threshold of the sidebar. *)
Let flag_agrees (c : candidate) : Prop :=
  c_shortlisted c = (c_confidence_score c >=? shortlist_threshold widgets)%Z.

Lemma process_file_results total idx f s s' :
  process_file total idx f s = (Ret tt, s') ->
  exists entries,
    all_results s' = all_results s ++ entries /\ Forall flag_agrees entries.
Proof.
  destruct (extract_text_from_file PdfReader pdfplumber_open Document decode f)
    as [[[text success] error]|e] eqn:E1.
  2:{ run_process_file. rewrite E1. discriminate. }
  destruct success.
  2:{ rewrite (process_file_not_extracted _ _ _ _ _ _ E1). intros [= <-].
      exists []. cbn [all_results]. now rewrite app_nil_r. }
  destruct (run_complete_analysis idx text (the_job_requirements widgets))
    as [e|answer] eqn:E2.
  { rewrite (process_file_analysis_raises _ _ _ _ _ _ _ E1 E2). intros [= <-].
    exists []. cbn [all_results]. now rewrite app_nil_r. }
  destruct (is_success answer) eqn:E3.
  2:{ rewrite (process_file_not_success _ _ _ _ _ _ _ E1 E2 E3). intros [= <-].
      exists []. cbn [all_results]. now rewrite app_nil_r. }
  destruct (answer ≫= r_parsed_resume) as [parsed|] eqn:E4.
  2:{ destruct (process_file_aborts total idx f s _ _ _ E1 E2 E3 (or_introl E4))
        as (e & s1 & -> & _). discriminate. }
  destruct (answer ≫= r_analysis) as [insight|] eqn:E5.
  2:{ destruct (process_file_aborts total idx f s _ _ _ E1 E2 E3 (or_intror E5))
        as (e & s1 & -> & _). discriminate. }
  rewrite (process_file_stored _ _ _ _ _ _ _ _ _ E1 E2 E3 E4 E5). intros [= <-].
  eexists [_]. cbn [all_results]. split; [reflexivity|].
  repeat constructor.
Qed.

(** Every entry a batch adds to the results carries the flag that its
    score and the threshold give. *)
Lemma analyze_all_results files s s' :
  analyze_all files s = (Ret tt, s') ->
  exists entries,
    all_results s' = all_results s ++ entries /\ Forall flag_agrees entries.
Proof.
  intros Hrun.
  destruct (loop (length files) (enumerate files) (started s))
    as [[[]|e] s1] eqn:Hloop.
  2:{ rewrite (analyze_all_loop_raises _ _ _ _ Hloop) in Hrun. discriminate. }
  destruct (analyze_all_after_loop _ _ _ Hloop)
    as (s2 & Hrun' & _ & _ & _ & E4 & _).
  rewrite Hrun in Hrun'. injection Hrun' as <-. rewrite E4.
  change (all_results s) with (all_results (started s)).
  clear Hrun E4. revert Hloop. generalize (started s) as s0.
  generalize (length files) as total.
  induction (enumerate files) as [|[idx f] items IH]; intros total s0.
  - intros [= <-]. exists []. now rewrite app_nil_r.
  - unfold loop. cbn [for_each]. unfold bind. fold (loop total items).
    destruct (process_file total idx f s0) as [[[]|e] s2] eqn:E; [|discriminate].
    intros Hrest. apply IH in Hrest as (rest & -> & Hrest).
    apply process_file_results in E as (first & -> & Hfirst).
    exists (first ++ rest). rewrite app_assoc. split; [reflexivity|].
    now apply Forall_app.
Qed.

(** C1. When the batch has run to its end, the files counted as
    successful and the files counted as failed are together the files of
    the batch: a file is counted as successful when it has no reason to
    fail, and as failed when it has one, so each is counted once. *)
Theorem analyze_all_counts (files : list UploadedFile) (s s' : state) :
  analyze_all files s = (Ret tt, s') ->
  successful s' + failed s' = length files /\
  successful s' =
    length (filter (fun it => item_failure it.1 it.2 = None)
                   (enumerate files)) /\
  failed s' =
    length (filter (fun it => item_failure it.1 it.2 <> None)
                   (enumerate files)).
Proof.
  intros Hrun.
  destruct (loop (length files) (enumerate files) (started s))
    as [[[]|e] s1] eqn:Hloop.
  2:{ rewrite (analyze_all_loop_raises _ _ _ _ Hloop) in Hrun. discriminate. }
  destruct (analyze_all_after_loop _ _ _ Hloop)
    as (s2 & Hrun' & E1 & E2 & _).
  rewrite Hrun in Hrun'. injection Hrun' as <-.
  destruct (loop_returns _ _ _ _ Hloop) as (H1 & H2 & _).
  cbn [started successful failed] in H1, H2.
  rewrite E1, E2, H1, H2. cbn [Nat.add].
  split; [|split; reflexivity].
  rewrite (length_filter_complement
             (fun it => item_failure it.1 it.2 = None) (enumerate files)).
  apply length_enumerate_from.
Qed.

(** When the analysis keeps its contract the batch runs to its end
    whatever fails on the way. The files are taken in the order of the
    upload, one status line each; the failure list holds, in that order,
    one entry with the name and the reason for each file that fails, and
    the count of failures is its length. *)
Theorem analyze_all_failures (files : list UploadedFile) (s : state) :
  answers_well_formed run_complete_analysis widgets ->
  exists s',
    analyze_all files s = (Ret tt, s') /\
    status_lines (ui s') =
      status_lines (ui s)
      ++ ((fun it => processing (length files) it.1 it.2)
          <$> enumerate files) /\
    failed_files s' = omap failure_entry (enumerate files) /\
    failed s' = length (failed_files s').
Proof.
  intros Hwf.
  destruct (loop_ends (length files) (enumerate files) (started s) Hwf)
    as [s1 Hloop].
  destruct (analyze_all_after_loop _ _ _ Hloop)
    as (s' & Hrun & _ & E2 & E3 & _ & E5).
  exists s'. split; [exact Hrun|].
  destruct (loop_returns _ _ _ _ Hloop) as (_ & H2 & H3 & H4).
  cbn [started failed failed_files ui] in H2, H3, H4.
  rewrite E2, E3, E5, H2, H3, H4, status_lines_app. cbn [app Nat.add].
  rewrite length_failure_entries.
  cbn [status_lines omap list_omap]. rewrite app_nil_r. auto.
Qed.

(** C6. A file whose analysis succeeds with the score [score] is stored
    with that score and with the flag [score >= shortlist_threshold], the
    threshold being the one set in the sidebar; this holds for every
    score and threshold, those from 0 to 100 among them. *)
Theorem stored_shortlisted (total idx : nat) (f : UploadedFile) (s : state)
    (text : pystr) (error : option pystr) (answer : option analysis_result)
    (parsed : parsed_dict) (insight : analysis_dict) (score : Z) :
  extract_text_from_file PdfReader pdfplumber_open Document decode f
    = Ret (text, true, error) ->
  run_complete_analysis idx text (the_job_requirements widgets)
    = AnalysisReturns answer ->
  is_success answer = true ->
  answer ≫= r_parsed_resume = Some parsed ->
  answer ≫= r_analysis = Some insight ->
  a_confidence_score insight = Some score ->
  exists s' c,
    process_file total idx f s = (Ret tt, s') /\
    all_results s' = all_results s ++ [c] /\
    c_resume_file c = name f /\
    c_confidence_score c = score /\
    c_shortlisted c = bool_decide (score >= shortlist_threshold widgets)%Z.
Proof.
  intros E1 E2 E3 E4 E5 E6.
  rewrite (process_file_stored _ _ _ _ _ _ _ _ _ E1 E2 E3 E4 E5).
  eexists _, _. split; [reflexivity|]. cbn [all_results].
  split; [reflexivity|]. unfold new_entry.
  cbn [c_resume_file c_confidence_score c_shortlisted]. rewrite E6.
  cbn [default]. unfold id. repeat split.
  rewrite Z.geb_leb.
  destruct (Z.leb_spec (shortlist_threshold widgets) score); symmetry.
  - apply bool_decide_eq_true_2. lia.
  - apply bool_decide_eq_false_2. lia.
Qed.
End WithCollaborators.

Lemma the_analysis_well_formed :
  answers_well_formed the_analysis the_widgets.
Proof.
  intros idx text answer E Hs.
  destruct idx as [|[|[|[|idx]]]]; cbn in E; simplify_eq;
    first [discriminate Hs | split; eexists; reflexivity].
Qed.

(** The batch of four files: one is stored, one is blank, one is rejected
    by the analysis and one meets a rate limit. *)
Example the_run_summary :
  fst the_run = Ret tt /\
  successful (snd the_run) = 1 /\ failed (snd the_run) = 3 /\
  (c_resume_file <$> all_results (snd the_run)) = [Some (lit "cv.txt")] /\
  (c_shortlisted <$> all_results (snd the_run)) = [true].
Proof. vm_compute. repeat split. Qed.

Lemma analyze_all_counts_witness :
  successful (snd the_run) + failed (snd the_run) = length the_batch.
Proof.
  apply (analyze_all_counts second_page_fails both_pages_read not_a_docx
           decode_ascii the_analysis the_clock the_widgets the_batch
           new_session (snd the_run)).
  vm_compute. reflexivity.
Defined.

Lemma analyze_all_failures_witness :
  fst the_run = Ret tt /\
  failed_files (snd the_run) =
    [lit "blank.txt - Text file is empty";
     lit "cv.pdf - Could not parse resume";
     lit "other.txt - Analysis error: rate limit reached"].
Proof.
  destruct (analyze_all_failures second_page_fails both_pages_read not_a_docx
              decode_ascii the_analysis the_clock the_widgets the_batch
              new_session the_analysis_well_formed)
    as (s' & Hrun & _ & Hfiles & _).
  unfold the_run. rewrite Hrun. split; [reflexivity|].
  cbn [snd]. rewrite Hfiles. vm_compute. reflexivity.
Defined.

(** C5. A failure of one file can end the batch. Of three files, the
    first is blank and the answer for the second reports a success
    without the analysis: the batch ends there with a [KeyError], raised
    by [result["analysis"]] outside the [try] of the analysis. The third
    file is never taken, and the failure list holds the first file only:
    the failure of the second is recorded nowhere. *)
Theorem analyze_all_malformed_answer :
  exists s',
    analyze_all second_page_fails both_pages_read not_a_docx decode_ascii
      the_malformed_analysis the_clock the_widgets three_files new_session
    = (Raise (Exn "KeyError" (lit "'analysis'")), s') /\
    status_lines (ui s')
    = [lit "Processing 1/3: blank.txt"; lit "Processing 2/3: cv.txt"] /\
    failed s' = 1 /\
    failed_files s' = [lit "blank.txt - Text file is empty"].
Proof. eexists. vm_compute. repeat split. Qed.

Lemma stored_shortlisted_witness :
  exists s' c,
    process_file second_page_fails both_pages_read not_a_docx decode_ascii
      the_analysis the_clock the_widgets 4 0 cv_txt new_session = (Ret tt, s') /\
    all_results s' = [c] /\ c_resume_file c = Some (lit "cv.txt") /\
    c_confidence_score c = 85%Z /\ c_shortlisted c = true.
Proof.
  apply (stored_shortlisted second_page_fails both_pages_read not_a_docx
           decode_ascii the_analysis the_clock the_widgets 4 0 cv_txt
           new_session (lit "Jane Doe") None (Some accepted) jane good_fit 85%Z);
    reflexivity.
Defined.

End batch_facts.

(** ** More on the batch loop *)

Module batch_more.
Import app extraction_facts batch_facts.

Lemma progress_events_app events events' :
  progress_events (events ++ events')
  = progress_events events ++ progress_events events'.
Proof. apply omap_app. Qed.

Lemma written_lines_app events events' :
  written_lines (events ++ events')
  = written_lines events ++ written_lines events'.
Proof. apply omap_app. Qed.

Lemma success_messages_app events events' :
  success_messages (events ++ events')
  = success_messages events ++ success_messages events'.
Proof. apply omap_app. Qed.

Lemma written_lines_written (entries : list pystr) :
  written_lines ((fun failed_file =>
                    st_write (bullet ++ lit " " ++ failed_file)) <$> entries)
  = (fun failed_file => bullet ++ lit " " ++ failed_file) <$> entries.
Proof.
  induction entries as [|entry entries IH]; [reflexivity|].
  cbn. f_equal. exact IH.
Qed.

Lemma progress_events_written (entries : list pystr) :
  progress_events ((fun failed_file =>
                      st_write (bullet ++ lit " " ++ failed_file))
                   <$> entries) = [].
Proof. induction entries as [|entry entries IH]; [reflexivity|exact IH]. Qed.

Lemma success_messages_written (entries : list pystr) :
  success_messages ((fun failed_file =>
                       st_write (bullet ++ lit " " ++ failed_file))
                    <$> entries) = [].
Proof. induction entries as [|entry entries IH]; [reflexivity|exact IH]. Qed.

Lemma fst_enumerate_from {A} start (xs : list A) :
  fst <$> enumerate_from start xs = seq start (length xs).
Proof.
  revert start. induction xs as [|x xs IH]; intros start; [reflexivity|].
  cbn. f_equal. rewrite IH. f_equal. lia.
Qed.

Lemma elem_of_enumerate_from {A} start (xs : list A) idx x :
  (idx, x) ∈ enumerate_from start xs ->
  start <= idx /\ xs !! (idx - start) = Some x.
Proof.
  revert start. induction xs as [|y xs IH]; intros start; cbn.
  - intros H. now apply elem_of_nil in H.
  - intros [[= -> ->]|H]%elem_of_cons.
    + split; [lia|]. now rewrite Nat.sub_diag.
    + apply IH in H as [Hle Hx]. split; [lia|].
      replace (idx - start) with (S (idx - (start + 1))) by lia. exact Hx.
Qed.

Lemma lookup_enumerate_from {A} start (xs : list A) i x :
  xs !! i = Some x -> (start + i, x) ∈ enumerate_from start xs.
Proof.
  revert start i. induction xs as [|y xs IH]; intros start i; [discriminate|].
  destruct i as [|i]; cbn.
  - intros [= ->]. rewrite Nat.add_0_r. apply list_elem_of_here.
  - intros H. apply list_elem_of_further.
    replace (start + S i) with (start + 1 + i) by lia. now apply IH.
Qed.

Lemma progress_of_enumerate {A} (n start : nat) (xs : list A) :
  (fun it => (it.1 + 1, n)) <$> enumerate_from start xs
  = (fun i => (i, n)) <$> seq (start + 1) (length xs).
Proof.
  revert start. induction xs as [|x xs IH]; intros start; [reflexivity|].
  cbn. f_equal. rewrite IH. do 2 f_equal. lia.
Qed.

Section WithCollaborators.
Variable PdfReader : list byte -> pdf.
Variable pdfplumber_open : list byte -> pdf.
Variable Document : list byte -> result (list pystr).
Variable decode : list byte -> result pystr.
Variable run_complete_analysis :
  nat -> pystr -> job_requirements -> analysis_outcome.
Variable now : nat -> pystr.
Variable widgets : sidebar.

Let extract :=
  extract_text_from_file PdfReader pdfplumber_open Document decode.
Let process_file :=
  process_file PdfReader pdfplumber_open Document decode
    run_complete_analysis now widgets.
Let analyze_all :=
  analyze_all PdfReader pdfplumber_open Document decode
    run_complete_analysis now widgets.
Let item_failure :=
  item_failure PdfReader pdfplumber_open Document decode
    run_complete_analysis widgets.
Let stored_name :=
  stored_name PdfReader pdfplumber_open Document decode
    run_complete_analysis widgets.
Let stored_analysis :=
  stored_analysis PdfReader pdfplumber_open Document decode
    run_complete_analysis widgets.
Let loop (total : nat) (items : list (nat * UploadedFile)) : Py state unit :=
  for_each items (fun '(idx, f) => process_file total idx f).
Let started (s : state) : state :=
  {| successful := 0; failed := 0; failed_files := [];
     all_results := all_results s; current_analysis := current_analysis s;
     ui := ui s ++ [progress 0 1] |}.

Let not_extracted :=
  process_file_not_extracted PdfReader pdfplumber_open Document decode
    run_complete_analysis now widgets.
Let analysis_raises :=
  process_file_analysis_raises PdfReader pdfplumber_open Document decode
    run_complete_analysis now widgets.
Let not_success :=
  process_file_not_success PdfReader pdfplumber_open Document decode
    run_complete_analysis now widgets.
Let stored :=
  process_file_stored PdfReader pdfplumber_open Document decode
    run_complete_analysis now widgets.
Let aborts :=
  process_file_aborts PdfReader pdfplumber_open Document decode
    run_complete_analysis now widgets.

Ltac projections :=
  cbn [ui successful failed failed_files all_results current_analysis];
  rewrite ?progress_events_app, ?written_lines_app, ?success_messages_app;
  cbn [progress_events written_lines success_messages omap list_omap app];
  rewrite ?app_nil_r.

(** What an iteration that ends normally does besides counting: it
    moves the progress bar once, writes no line, and stores the file or
    leaves the results and the last analysis as they are. *)
Lemma process_file_effects total idx f s s' :
  process_file total idx f s = (Ret tt, s') ->
  progress_events (ui s') = progress_events (ui s) ++ [(idx + 1, total)] /\
  written_lines (ui s') = written_lines (ui s) /\
  match stored_name (idx, f) with
  | Some stored_as =>
      (exists c, all_results s' = all_results s ++ [c]
                 /\ c_resume_file c = stored_as) /\
      (exists cur, current_analysis s' = Some cur
                   /\ cur_resume_name cur = stored_as) /\
      exists msg, success_messages (ui s') = success_messages (ui s) ++ [msg]
  | None =>
      all_results s' = all_results s /\
      current_analysis s' = current_analysis s /\
      success_messages (ui s') = success_messages (ui s)
  end.
Proof.
  unfold stored_name, app.stored_name, app.item_failure. cbn [fst snd].
  unfold process_file. fold (extract f).
  destruct (extract f) as [[[text success] error]|e] eqn:E1.
  2:{ unfold app.process_file, emit. run_py. fold (extract f).
      rewrite E1. discriminate. }
  destruct success; cbn [negb].
  2:{ rewrite (not_extracted _ _ _ _ _ _ E1). intros [= <-]. now projections. }
  destruct (run_complete_analysis idx text _) as [e|answer] eqn:E2.
  { rewrite (analysis_raises _ _ _ _ _ _ _ E1 E2). intros [= <-].
    now projections. }
  destruct (is_success answer) eqn:E3.
  2:{ rewrite (not_success _ _ _ _ _ _ _ E1 E2 E3). intros [= <-].
      now projections. }
  destruct (answer ≫= r_parsed_resume) as [parsed|] eqn:E4.
  2:{ destruct (aborts total idx f s _ _ _ E1 E2 E3 (or_introl E4))
        as (e & s1 & -> & _). discriminate. }
  destruct (answer ≫= r_analysis) as [insight|] eqn:E5.
  2:{ destruct (aborts total idx f s _ _ _ E1 E2 E3 (or_intror E5))
        as (e & s1 & -> & _). discriminate. }
  rewrite (stored _ _ _ _ _ _ _ _ _ E1 E2 E3 E4 E5). intros [= <-].
  projections. repeat split; eauto.
Qed.

(** The only exception that leaves an iteration is a [KeyError]. *)
Lemma process_file_raises total idx f s e s' :
  process_file total idx f s = (Raise e, s') ->
  exn_class e = "KeyError"%string.
Proof.
  unfold process_file.
  destruct (extract_returns PdfReader pdfplumber_open Document decode f)
    as [[[text success] error] E1].
  destruct success.
  2:{ rewrite (not_extracted _ _ _ _ _ _ E1). discriminate. }
  destruct (run_complete_analysis idx text (the_job_requirements widgets))
    as [e0|answer] eqn:E2.
  { rewrite (analysis_raises _ _ _ _ _ _ _ E1 E2). discriminate. }
  destruct (is_success answer) eqn:E3.
  2:{ rewrite (not_success _ _ _ _ _ _ _ E1 E2 E3). discriminate. }
  destruct (answer ≫= r_parsed_resume) as [parsed|] eqn:E4.
  2:{ destruct (aborts total idx f s _ _ _ E1 E2 E3 (or_introl E4))
        as (e1 & s1 & -> & He1). now intros [= <- _]. }
  destruct (answer ≫= r_analysis) as [insight|] eqn:E5.
  2:{ destruct (aborts total idx f s _ _ _ E1 E2 E3 (or_intror E5))
        as (e1 & s1 & -> & He1). now intros [= <- _]. }
  rewrite (stored _ _ _ _ _ _ _ _ _ E1 E2 E3 E4 E5). discriminate.
Qed.

Lemma loop_effects total items s s' :
  loop total items s = (Ret tt, s') ->
  progress_events (ui s') =
    progress_events (ui s) ++ ((fun it => (it.1 + 1, total)) <$> items) /\
  written_lines (ui s') = written_lines (ui s) /\
  (exists entries,
      all_results s' = all_results s ++ entries /\
      c_resume_file <$> entries = omap stored_name items) /\
  match last (omap stored_name items) with
  | Some stored_as =>
      exists cur, current_analysis s' = Some cur
                  /\ cur_resume_name cur = stored_as
  | None => current_analysis s' = current_analysis s
  end /\
  exists msgs,
    success_messages (ui s') = success_messages (ui s) ++ msgs /\
    length msgs = length (omap stored_name items).
Proof.
  revert s. induction items as [|[idx f] items IH]; intros s.
  - intros [= <-]. cbn. rewrite !app_nil_r. repeat split.
    + exists []. now rewrite app_nil_r.
    + exists []. now rewrite app_nil_r.
  - unfold loop. cbn [for_each]. unfold bind. fold (loop total items).
    destruct (process_file total idx f s) as [[[]|e] s1] eqn:E; [|discriminate].
    intros Hrest.
    apply IH in Hrest
      as (H1 & H2 & (rest & H3 & H3') & H4 & (msgs & H5 & H5')).
    apply process_file_effects in E as (E1 & E2 & E).
    rewrite H1, H2, H5, E1, E2. cbn [fmap list_fmap omap list_omap fst snd].
    rewrite <- app_assoc. split; [reflexivity|]. split; [reflexivity|].
    destruct (stored_name (idx, f)) as [stored_as|].
    + destruct E as ((c & Ec & Hc) & (cur & Ecur & Hcur) & (msg & Emsg)).
      split; [|split].
      * exists (c :: rest). rewrite H3, Ec, <- app_assoc. split; [reflexivity|].
        cbn. now rewrite Hc, H3'.
      * rewrite last_cons.
        destruct (last (omap stored_name items)) as [later|].
        -- exact H4.
        -- exists cur. now rewrite H4.
      * exists (msg :: msgs). rewrite Emsg, <- app_assoc.
        split; [reflexivity|]. cbn [length]. now rewrite H5'.
    + destruct E as (Ec & Ecur & Emsg). split; [|split].
      * exists rest. now rewrite H3, Ec.
      * destruct (last (omap stored_name items)); [exact H4|]. now rewrite H4.
      * exists msgs. now rewrite Emsg.
Qed.

(** Lines 305-310: the summary. *)
Let summary_of (s1 : state) (total_files : nat) : pystr :=
  newline ++ indent ++ lit "**Processing Summary:**"
  ++ newline ++ indent ++ lit "- " ++ check_mark
  ++ lit " Successful: " ++ str_of_nat (successful s1)
  ++ newline ++ indent ++ lit "- " ++ cross_mark
  ++ lit " Failed: " ++ str_of_nat (failed s1)
  ++ newline ++ indent ++ lit "- " ++ bar_chart
  ++ lit " Total: " ++ str_of_nat total_files
  ++ newline ++ indent.

(** What the page shows after the loop: the full progress bar, the end of
    the processing, the summary when a file was stored, and the list of
    the failed files when there is one. *)
Let closing (s1 : state) (summary : pystr) : list ui_event :=
  [progress 1 1;
   status_success (check_mark ++ lit " Bulk processing complete!")]
  ++ (if bool_decide (0 < successful s1) then [st_success summary] else [])
  ++ (if bool_decide (0 < failed s1)
      then st_error (lit "**Failed Resumes ("
                     ++ str_of_nat (failed s1) ++ lit "):**")
           :: ((fun failed_file =>
                  st_write (bullet ++ lit " " ++ failed_file))
               <$> failed_files s1)
      else []).

Lemma closing_progress s1 summary :
  progress_events (closing s1 summary) = [(1, 1)].
Proof.
  unfold closing. rewrite !progress_events_app.
  do 2 case_bool_decide; cbn [progress_events omap list_omap app];
    rewrite ?app_nil_r; try reflexivity;
    fold (progress_events
            ((fun failed_file => st_write (bullet ++ lit " " ++ failed_file))
             <$> failed_files s1));
    now rewrite progress_events_written.
Qed.

Lemma closing_written s1 summary :
  written_lines (closing s1 summary) =
  if bool_decide (0 < failed s1)
  then (fun failed_file => bullet ++ lit " " ++ failed_file)
       <$> failed_files s1
  else [].
Proof.
  unfold closing. rewrite !written_lines_app.
  do 2 case_bool_decide; cbn [written_lines omap list_omap app];
    rewrite ?app_nil_r; try reflexivity;
    fold (written_lines
            ((fun failed_file => st_write (bullet ++ lit " " ++ failed_file))
             <$> failed_files s1));
    now rewrite written_lines_written.
Qed.

Lemma closing_success s1 summary :
  success_messages (closing s1 summary) =
  if bool_decide (0 < successful s1) then [summary] else [].
Proof.
  unfold closing. rewrite !success_messages_app.
  do 2 case_bool_decide; cbn [success_messages omap list_omap app];
    rewrite ?app_nil_r; try reflexivity;
    fold (success_messages
            ((fun failed_file => st_write (bullet ++ lit " " ++ failed_file))
             <$> failed_files s1));
    now rewrite success_messages_written.
Qed.

(** The state the body of the button ends in, given the one the loop has
    left. *)
Lemma analyze_all_tail files s s1 :
  loop (length files) (enumerate files) (started s) = (Ret tt, s1) ->
  analyze_all files s =
  (Ret tt,
   {| successful := successful s1; failed := failed s1;
      failed_files := failed_files s1; all_results := all_results s1;
      current_analysis := current_analysis s1;
      ui := ui s1 ++ closing s1 (summary_of s1 (length files)) |}).
Proof.
  intros Hloop. unfold analyze_all, app.analyze_all, reset_counters. run_py.
  rewrite emit_run. cbv beta iota. cbn [ui all_results current_analysis].
  fold (started s). fold process_file.
  fold (loop (length files) (enumerate files)). rewrite Hloop. cbv beta iota.
  rewrite !emit_run. cbv beta iota. unfold summary_of, closing.
  cbn [ui successful failed failed_files all_results current_analysis].
  repeat (case_bool_decide; rewrite ?emit_run; cbv beta iota;
          cbn [ui successful failed failed_files all_results
               current_analysis]);
    rewrite ?write_failed_files;
    cbn [ui successful failed failed_files all_results current_analysis];
    rewrite <- ?app_assoc; cbn [app]; rewrite ?app_nil_r; reflexivity.
Qed.

Lemma finished files s s' :
  analyze_all files s = (Ret tt, s') ->
  exists s1,
    loop (length files) (enumerate files) (started s) = (Ret tt, s1) /\
    s' =
     {| successful := successful s1; failed := failed s1;
        failed_files := failed_files s1; all_results := all_results s1;
        current_analysis := current_analysis s1;
        ui := ui s1 ++ closing s1 (summary_of s1 (length files)) |}.
Proof.
  intros Hrun.
  destruct (loop (length files) (enumerate files) (started s))
    as [[[]|e] s1] eqn:Hloop.
  - pose proof (analyze_all_tail files s s1 Hloop) as Htail.
    exists s1. split; [reflexivity|]. congruence.
  - pose proof (analyze_all_loop_raises PdfReader pdfplumber_open Document
                  decode run_complete_analysis now widgets files s e s1 Hloop)
      as Hraise.
    fold analyze_all in Hraise. congruence.
Qed.

Lemma length_stored_names items :
  length (omap stored_name items)
  = length (filter (fun it => item_failure it.1 it.2 = None) items).
Proof.
  induction items as [|[idx f] items IH]; [reflexivity|].
  rewrite filter_cons. cbn [omap list_omap fst snd].
  unfold stored_name at 1, app.stored_name. cbn [fst snd].
  fold (item_failure idx f).
  destruct (item_failure idx f) as [reason|].
  - rewrite decide_False by discriminate. exact IH.
  - rewrite decide_True by reflexivity. cbn [length]. now rewrite IH.
Qed.

Let counts :=
  loop_returns PdfReader pdfplumber_open Document decode
    run_complete_analysis now widgets.

(** X16. A batch that runs to its end moves the progress bar from 0 to
    1/n, 2/n and so on to n/n, once per file whether the file is stored
    or fails, and then sets it to 1. *)
Theorem analyze_all_progress (files : list UploadedFile) (s s' : state) :
  analyze_all files s = (Ret tt, s') ->
  progress_events (ui s') =
    progress_events (ui s)
    ++ [(0, 1)]
    ++ ((fun i => (i, length files)) <$> seq 1 (length files))
    ++ [(1, 1)].
Proof.
  intros (s1 & Hloop & ->)%finished.
  apply loop_effects in Hloop as (H1 & _). cbn [ui].
  rewrite progress_events_app, closing_progress, H1. cbn [started ui].
  rewrite progress_events_app. cbn [progress_events omap list_omap].
  rewrite <- !app_assoc. do 2 f_equal. cbn [app]. f_equal. f_equal.
  apply (progress_of_enumerate (length files) 0 files).
Qed.

Let entries_of :=
  length_failure_entries PdfReader pdfplumber_open Document decode
    run_complete_analysis widgets.

(** X17. A batch that runs to its end appends to the results of the
    session, which it keeps, one entry per file it counts as successful,
    in the order of the upload and under the name of the file. *)
Theorem analyze_all_stores (files : list UploadedFile) (s s' : state) :
  analyze_all files s = (Ret tt, s') ->
  exists entries,
    all_results s' = all_results s ++ entries /\
    c_resume_file <$> entries = omap stored_name (enumerate files) /\
    length entries = successful s'.
Proof.
  intros (s1 & Hloop & ->)%finished.
  pose proof (counts _ _ _ _ Hloop) as (Hs & _).
  apply loop_effects in Hloop as (_ & _ & (entries & H3 & H3') & _).
  exists entries. cbn [all_results successful started] in *.
  split; [exact H3|]. split; [exact H3'|].
  rewrite Hs, <- length_stored_names, <- H3', length_fmap. reflexivity.
Qed.

(** An iteration that ends normally leaves as the last analysis what
    its file gives, or the one there was; the files that give one are
    those that are stored. *)
Lemma process_file_current total idx f s s' :
  process_file total idx f s = (Ret tt, s') ->
  current_analysis s'
  = from_option Some (current_analysis s) (stored_analysis (idx, f)) /\
  cur_resume_name <$> stored_analysis (idx, f) = stored_name (idx, f).
Proof.
  unfold stored_analysis, app.stored_analysis, stored_name, app.stored_name,
    app.item_failure. cbn [fst snd].
  unfold process_file. fold (extract f).
  destruct (extract f) as [[[text success] error]|e] eqn:E1.
  2:{ unfold app.process_file, emit. run_py. fold (extract f).
      rewrite E1. discriminate. }
  destruct success; cbn [negb].
  2:{ rewrite (not_extracted _ _ _ _ _ _ E1). now intros [= <-]. }
  destruct (run_complete_analysis idx text _) as [e|answer] eqn:E2.
  { rewrite (analysis_raises _ _ _ _ _ _ _ E1 E2). now intros [= <-]. }
  destruct (is_success answer) eqn:E3.
  2:{ rewrite (not_success _ _ _ _ _ _ _ E1 E2 E3). now intros [= <-]. }
  destruct (answer ≫= r_parsed_resume) as [parsed|] eqn:E4.
  2:{ destruct (aborts total idx f s _ _ _ E1 E2 E3 (or_introl E4))
        as (e & s1 & -> & _). discriminate. }
  destruct (answer ≫= r_analysis) as [insight|] eqn:E5.
  2:{ destruct (aborts total idx f s _ _ _ E1 E2 E3 (or_intror E5))
        as (e & s1 & -> & _). discriminate. }
  rewrite (stored _ _ _ _ _ _ _ _ _ E1 E2 E3 E4 E5). now intros [= <-].
Qed.

Lemma loop_current total items s s' :
  loop total items s = (Ret tt, s') ->
  current_analysis s'
  = from_option Some (current_analysis s)
      (last (omap stored_analysis items)) /\
  cur_resume_name <$> omap stored_analysis items = omap stored_name items.
Proof.
  revert s. induction items as [|[idx f] items IH]; intros s.
  - now intros [= <-].
  - unfold loop. cbn [for_each]. unfold bind. fold (loop total items).
    destruct (process_file total idx f s) as [[[]|e] s1] eqn:E; [|discriminate].
    intros Hrest. apply IH in Hrest as [H1 H2].
    apply process_file_current in E as [E1 E2].
    cbn [omap list_omap]. rewrite H1, E1, <- E2, <- H2.
    destruct (stored_analysis (idx, f)) as [cur|]; cbn [fmap option_fmap
      option_map from_option]; [|now split].
    cbn [fmap list_fmap]. rewrite last_cons.
    now destruct (last (omap stored_analysis items)).
Qed.

(** X18. After a batch that runs to its end, the last analysis of the
    session is that of the last file stored: the parsed resume and the
    analysis that the answer for the extracted text of that file holds,
    under the name of the file. The files that leave one are the files
    that are stored, and when no file was stored the last analysis is
    the one the session had. *)
Theorem analyze_all_current_analysis (files : list UploadedFile)
    (s s' : state) :
  analyze_all files s = (Ret tt, s') ->
  let left_by := omap stored_analysis (enumerate files) in
  cur_resume_name <$> left_by = omap stored_name (enumerate files) /\
  current_analysis s'
  = match last left_by with
    | Some cur => Some cur
    | None => current_analysis s
    end.
Proof.
  intros (s1 & Hloop & ->)%finished.
  apply loop_current in Hloop as [H1 H2]. cbv zeta. split; [exact H2|].
  cbn [current_analysis started] in *. rewrite H1.
  now destruct (last _).
Qed.

(** X19. A batch that runs to its end writes the failed files out at its
    end and nowhere else: one line per entry of the failure list, in its
    order, the entry after a bullet. *)
Theorem analyze_all_written (files : list UploadedFile) (s s' : state) :
  analyze_all files s = (Ret tt, s') ->
  written_lines (ui s') =
    written_lines (ui s)
    ++ ((fun failed_file => bullet ++ lit " " ++ failed_file)
        <$> failed_files s').
Proof.
  intros (s1 & Hloop & ->)%finished.
  pose proof (counts _ _ _ _ Hloop) as (_ & Hf & Hff & _).
  apply loop_effects in Hloop as (_ & H2 & _).
  cbn [ui failed_files failed started app] in *.
  rewrite written_lines_app, closing_written, H2, written_lines_app.
  cbn [written_lines omap list_omap]. rewrite app_nil_r. f_equal.
  case_bool_decide as Hpos; [reflexivity|].
  assert (failed_files s1 = []) as ->; [|reflexivity].
  apply nil_length_inv. rewrite Hff, entries_of. lia.
Qed.

(** X20. A batch that runs to its end shows one success message per file
    stored and, when at least one was stored, the summary after them;
    when every file fails it shows no success message and no summary. *)
Theorem analyze_all_success_messages (files : list UploadedFile)
    (s s' : state) :
  analyze_all files s = (Ret tt, s') ->
  exists msgs,
    success_messages (ui s') = success_messages (ui s) ++ msgs /\
    length msgs =
      successful s' + (if bool_decide (0 < successful s') then 1 else 0).
Proof.
  intros (s1 & Hloop & ->)%finished.
  pose proof (counts _ _ _ _ Hloop) as (Hs & _).
  apply loop_effects in Hloop as (_ & _ & _ & _ & (msgs & H5 & H5')).
  cbn [ui successful started] in *.
  exists (msgs ++ if bool_decide (0 < successful s1)
                  then [summary_of s1 (length files)] else []).
  rewrite success_messages_app, closing_success, H5, success_messages_app.
  cbn [success_messages omap list_omap]. rewrite app_nil_r, <- app_assoc.
  split; [reflexivity|].
  rewrite length_app, H5', length_stored_names. unfold item_failure.
  cbn [Nat.add] in Hs. rewrite <- Hs.
  now case_bool_decide.
Qed.

(** An iteration, however it ends, does not announce the end of the
    processing. *)
Lemma process_file_keeps_status total idx f s r s' msg :
  process_file total idx f s = (r, s') ->
  status_success msg ∈ ui s' -> status_success msg ∈ ui s.
Proof.
  unfold process_file, app.process_file, emit, record_failure, record_success,
    dict_getitem.
  run_py. fold (extract f).
  destruct (extract f) as [[[text success] error]|e];
    [destruct success; cbn [negb]|].
  2,3: intros [= <- <-]; cbn [ui]; rewrite !elem_of_app;
       rewrite ?list_elem_of_singleton; intuition discriminate.
  destruct (run_complete_analysis idx text _) as [e|answer].
  { intros [= <- <-]; cbn [ui]; rewrite !elem_of_app;
      rewrite ?list_elem_of_singleton; intuition discriminate. }
  destruct (is_success answer).
  - fold (answer ≫= r_parsed_resume). fold (answer ≫= r_analysis).
    destruct (answer ≫= r_parsed_resume); [destruct (answer ≫= r_analysis)|];
      intros [= <- <-]; cbn [ui]; rewrite !elem_of_app;
      rewrite ?list_elem_of_singleton; intuition discriminate.
  - intros [= <- <-]; cbn [ui]; rewrite !elem_of_app;
      rewrite ?list_elem_of_singleton; intuition discriminate.
Qed.

Lemma loop_keeps_status total items s r s' msg :
  loop total items s = (r, s') ->
  status_success msg ∈ ui s' -> status_success msg ∈ ui s.
Proof.
  revert s. induction items as [|[idx f] items IH]; intros s.
  - now intros [= <- <-].
  - unfold loop. cbn [for_each]. unfold bind. fold (loop total items).
    destruct (process_file total idx f s) as [[[]|e0] s1] eqn:E.
    + intros Hrest Hin. specialize (IH s1 Hrest Hin).
      eapply process_file_keeps_status; eassumption.
    + intros [= <- <-] Hin.
      eapply process_file_keeps_status; eassumption.
Qed.

Lemma loop_aborts total items s idx f text error answer :
  (idx, f) ∈ items ->
  extract f = Ret (text, true, error) ->
  run_complete_analysis idx text (the_job_requirements widgets)
    = AnalysisReturns answer ->
  is_success answer = true ->
  answer ≫= r_parsed_resume = None \/ answer ≫= r_analysis = None ->
  exists e s',
    loop total items s = (Raise e, s') /\ exn_class e = "KeyError"%string.
Proof.
  intros Hin E1 E2 E3 E4. revert s.
  induction items as [|[idx0 f0] items IH]; intros s.
  { now apply elem_of_nil in Hin. }
  unfold loop. cbn [for_each]. unfold bind. fold (loop total items).
  destruct (process_file total idx0 f0 s) as [[[]|e] s1] eqn:E.
  - apply elem_of_cons in Hin as [[= <- <-]|Hin].
    + destruct (aborts total idx f s _ _ _ E1 E2 E3 E4) as (e & s2 & He & _).
      unfold process_file in E. congruence.
    + now apply IH.
  - exists e, s1. split; [reflexivity|]. now apply process_file_raises in E.
Qed.

(** X21. An answer of the analysis that says it is a success and lacks
    the parsed resume or the analysis ends the whole batch with a
    [KeyError]: the files after it are not processed and no summary is
    shown. *)
Theorem analyze_all_aborts (files : list UploadedFile) (s : state)
    (i : nat) (f : UploadedFile) (text : pystr) (error : option pystr)
    (answer : option analysis_result) :
  files !! i = Some f ->
  extract f = Ret (text, true, error) ->
  run_complete_analysis i text (the_job_requirements widgets)
    = AnalysisReturns answer ->
  is_success answer = true ->
  answer ≫= r_parsed_resume = None \/ answer ≫= r_analysis = None ->
  exists e s',
    analyze_all files s = (Raise e, s') /\
    exn_class e = "KeyError"%string /\
    forall msg, status_success msg ∈ ui s' -> status_success msg ∈ ui s.
Proof.
  intros Hi E1 E2 E3 E4.
  apply (lookup_enumerate_from 0) in Hi. cbn [Nat.add] in Hi.
  destruct (loop_aborts (length files) (enumerate files) (started s)
              i f text error answer Hi E1 E2 E3 E4) as (e & s' & Hloop & He).
  exists e, s'. split; [|split; [exact He|]].
  - apply (analyze_all_loop_raises PdfReader pdfplumber_open Document
             decode run_complete_analysis now widgets files s e s' Hloop).
  - intros msg Hin.
    assert (status_success msg ∈ ui (started s)) as Hs.
    { eapply loop_keeps_status; eassumption. }
    cbn [started ui] in Hs. apply elem_of_app in Hs as [Hs|Hs]; [exact Hs|].
    apply list_elem_of_singleton in Hs. discriminate.
Qed.
End WithCollaborators.

Lemma for_each_ext {S A} (xs : list A) (body1 body2 : A -> Py S unit) :
  (forall x, x ∈ xs -> forall s, body1 x s = body2 x s) ->
  forall s, for_each xs body1 s = for_each xs body2 s.
Proof.
  induction xs as [|x xs IH]; intros Hbody s; [reflexivity|].
  cbn [for_each]. unfold bind.
  rewrite (Hbody x (list_elem_of_here _ _)).
  destruct (body2 x s) as [[[]|e] s1]; [|reflexivity].
  apply IH. intros y Hy. apply Hbody. now apply list_elem_of_further.
Qed.

Section TwoAnalyses.
Variable PdfReader : list byte -> pdf.
Variable pdfplumber_open : list byte -> pdf.
Variable Document : list byte -> result (list pystr).
Variable decode : list byte -> result pystr.
Variable analysis1 analysis2 :
  nat -> pystr -> job_requirements -> analysis_outcome.
Variable now : nat -> pystr.
Variable widgets : sidebar.

Let extract :=
  extract_text_from_file PdfReader pdfplumber_open Document decode.

Lemma process_file_same total idx f s :
  (forall text error,
      extract f = Ret (text, true, error) ->
      analysis1 idx text (the_job_requirements widgets)
      = analysis2 idx text (the_job_requirements widgets)) ->
  process_file PdfReader pdfplumber_open Document decode analysis1 now
    widgets total idx f s
  = process_file PdfReader pdfplumber_open Document decode analysis2 now
      widgets total idx f s.
Proof.
  intros Hsame. unfold process_file. run_py. fold (extract f).
  rewrite !emit_run. cbv beta iota.
  destruct (extract f) as [[[text success] error]|e]; [|reflexivity].
  destruct success; cbn [negb]; [|reflexivity].
  now rewrite (Hsame text error eq_refl).
Qed.

(** X22. The analysis is asked about a file only once its text is
    extracted, and about that text: two analyses that answer alike at the
    position of every file of the batch whose extraction succeeds, on the
    text extracted, give the same batch, whatever they would answer
    elsewhere. *)
Theorem analyze_all_asks_for_extracted_text (files : list UploadedFile)
    (s : state) :
  (forall idx f text error,
      files !! idx = Some f ->
      extract f = Ret (text, true, error) ->
      analysis1 idx text (the_job_requirements widgets)
      = analysis2 idx text (the_job_requirements widgets)) ->
  analyze_all PdfReader pdfplumber_open Document decode analysis1 now
    widgets files s
  = analyze_all PdfReader pdfplumber_open Document decode analysis2 now
      widgets files s.
Proof.
  intros Hsame. unfold analyze_all, reset_counters. run_py.
  rewrite !emit_run. cbv beta iota.
  rewrite (for_each_ext (enumerate files)
             (fun '(idx, uploaded_file) =>
                process_file PdfReader pdfplumber_open Document decode
                  analysis1 now widgets (length files) idx uploaded_file)
             (fun '(idx, uploaded_file) =>
                process_file PdfReader pdfplumber_open Document decode
                  analysis2 now widgets (length files) idx uploaded_file));
    [reflexivity|].
  intros [idx f] Hin s0. apply process_file_same. intros text error.
  apply (elem_of_enumerate_from 0) in Hin as [_ Hin].
  rewrite Nat.sub_0_r in Hin. now apply Hsame.
Qed.
End TwoAnalyses.

Lemma the_run_returns :
  analyze_all second_page_fails both_pages_read not_a_docx decode_ascii
    the_analysis the_clock the_widgets the_batch new_session
  = (Ret tt, snd the_run).
Proof. vm_compute. reflexivity. Qed.

Lemma analyze_all_progress_witness :
  progress_events (ui (snd the_run)) =
    [(0, 1); (1, 4); (2, 4); (3, 4); (4, 4); (1, 1)].
Proof.
  pose proof (analyze_all_progress second_page_fails both_pages_read
                not_a_docx decode_ascii the_analysis the_clock the_widgets
                the_batch new_session (snd the_run) the_run_returns) as H.
  vm_compute in H. vm_compute. exact H.
Defined.

Lemma analyze_all_stores_witness :
  exists entries,
    all_results (snd the_run) = entries /\
    c_resume_file <$> entries = [Some (lit "cv.txt")] /\
    length entries = successful (snd the_run).
Proof.
  destruct (analyze_all_stores second_page_fails both_pages_read not_a_docx
              decode_ascii the_analysis the_clock the_widgets the_batch
              new_session (snd the_run) the_run_returns)
    as (entries & H1 & H2 & H3).
  exists entries. split; [exact H1|]. split; [|exact H3].
  rewrite H2. vm_compute. reflexivity.
Defined.

Lemma analyze_all_current_analysis_witness :
  current_analysis (snd the_run)
  = Some {| cur_parsed := jane; cur_analysis := good_fit;
            cur_resume_name := Some (lit "cv.txt") |}.
Proof.
  destruct (analyze_all_current_analysis second_page_fails both_pages_read
              not_a_docx decode_ascii the_analysis the_clock the_widgets
              the_batch new_session (snd the_run) the_run_returns)
    as [_ H].
  rewrite H. vm_compute. reflexivity.
Defined.

Lemma analyze_all_written_witness :
  written_lines (ui (snd the_run)) =
    (fun failed_file => bullet ++ lit " " ++ failed_file)
    <$> failed_files (snd the_run).
Proof.
  apply (analyze_all_written second_page_fails both_pages_read not_a_docx
           decode_ascii the_analysis the_clock the_widgets the_batch
           new_session (snd the_run) the_run_returns).
Defined.

Lemma analyze_all_success_messages_witness :
  length (success_messages (ui (snd the_run))) = 2.
Proof.
  destruct (analyze_all_success_messages second_page_fails both_pages_read
              not_a_docx decode_ascii the_analysis the_clock the_widgets
              the_batch new_session (snd the_run) the_run_returns)
    as (msgs & H1 & H2).
  rewrite H1, length_app, H2. vm_compute. reflexivity.
Defined.

Lemma analyze_all_aborts_witness :
  exists e s',
    analyze_all second_page_fails both_pages_read not_a_docx decode_ascii
      the_broken_analysis the_clock the_widgets the_batch new_session
      = (Raise e, s') /\
    exn_class e = "KeyError"%string.
Proof.
  destruct (analyze_all_aborts second_page_fails both_pages_read not_a_docx
              decode_ascii the_broken_analysis the_clock the_widgets
              the_batch new_session 0 cv_txt (lit "Jane Doe") None
              (Some incomplete) eq_refl eq_refl eq_refl eq_refl
              (or_intror eq_refl))
    as (e & s' & Hrun & He & _).
  now exists e, s'.
Defined.

Lemma analyze_all_asks_for_extracted_text_witness :
  analyze_all second_page_fails both_pages_read not_a_docx decode_ascii
    the_analysis the_clock the_widgets the_batch new_session
  = analyze_all second_page_fails both_pages_read not_a_docx decode_ascii
      the_other_analysis the_clock the_widgets the_batch new_session.
Proof.
  apply (analyze_all_asks_for_extracted_text second_page_fails
           both_pages_read not_a_docx decode_ascii the_analysis
           the_other_analysis the_clock the_widgets the_batch new_session).
  intros idx f text error Hf Hx.
  destruct idx as [|[|idx]]; [reflexivity| |reflexivity].
  injection Hf as <-. vm_compute in Hx. discriminate.
Defined.

End batch_more.

(** ** The pages of results *)

Module display_facts.
Import app batch_facts.

Lemma insert_by_score_perm c sorted :
  insert_by_score c sorted ≡ₚ c :: sorted.
Proof.
  induction sorted as [|d rest IH]; cbn; [reflexivity|].
  destruct (c_confidence_score d <=? c_confidence_score c)%Z; [reflexivity|].
  rewrite IH. apply perm_swap.
Qed.

Lemma sorted_results_perm results : sorted_results results ≡ₚ results.
Proof.
  induction results as [|c results IH]; [reflexivity|].
  cbn. rewrite insert_by_score_perm. now rewrite IH.
Qed.

Lemma insert_by_score_sorted c sorted :
  StronglySorted before sorted ->
  StronglySorted before (insert_by_score c sorted).
Proof.
  induction 1 as [|d rest Hrest IH Hd]; cbn.
  - repeat constructor.
  - destruct (Z.leb_spec (c_confidence_score d) (c_confidence_score c)).
    + constructor; [now constructor|]. constructor; [assumption|].
      eapply Forall_impl; [exact Hd|]. unfold before. intros x Hx. lia.
    + constructor; [exact IH|]. rewrite insert_by_score_perm.
      constructor; [unfold before; lia|exact Hd].
Qed.

Lemma sorted_results_sorted results :
  StronglySorted before (sorted_results results).
Proof.
  induction results as [|c results IH]; [constructor|].
  cbn. now apply insert_by_score_sorted.
Qed.

(** X23. The results are shown by score, the highest first: the list
    shown holds the same entries as the session, each as often, and no
    entry has a higher score than one shown before it; so the entry
    shown first, the best match, has the highest score of all. *)
Theorem sorted_results_by_score (results : list candidate) :
  sorted_results results ≡ₚ results /\
  StronglySorted before (sorted_results results) /\
  forall best rest,
    sorted_results results = best :: rest ->
    forall c, c ∈ results ->
      (c_confidence_score c <= c_confidence_score best)%Z.
Proof.
  split; [apply sorted_results_perm|]. split; [apply sorted_results_sorted|].
  intros best rest Hsorted c Hc.
  rewrite <- (sorted_results_perm results), Hsorted in Hc.
  pose proof (sorted_results_sorted results) as Hs. rewrite Hsorted in Hs.
  apply StronglySorted_inv in Hs as [_ Hbest].
  apply elem_of_cons in Hc as [->|Hc]; [lia|].
  rewrite Forall_forall in Hbest. now apply Hbest.
Qed.

Lemma filter_insert_by_score (k : Z) c sorted :
  List.filter (fun d => (c_confidence_score d =? k)%Z)
              (insert_by_score c sorted)
  = List.filter (fun d => (c_confidence_score d =? k)%Z) (c :: sorted).
Proof.
  induction sorted as [|d rest IH]; [reflexivity|].
  cbn [insert_by_score].
  destruct (Z.leb_spec (c_confidence_score d) (c_confidence_score c))
    as [Hle|Hlt]; [reflexivity|].
  cbn [List.filter] in *. rewrite IH.
  destruct (Z.eqb_spec (c_confidence_score c) k) as [Hc|Hc];
    destruct (Z.eqb_spec (c_confidence_score d) k) as [Hd|Hd];
    try reflexivity.
  lia.
Qed.

(** X24. The order by score is stable: the entries that have the same
    score are shown in the order in which the session holds them. *)
Theorem sorted_results_stable (results : list candidate) (k : Z) :
  List.filter (fun d => (c_confidence_score d =? k)%Z)
              (sorted_results results)
  = List.filter (fun d => (c_confidence_score d =? k)%Z) results.
Proof.
  induction results as [|c results IH]; [reflexivity|].
  cbn [sorted_results foldr]. fold (sorted_results results).
  rewrite filter_insert_by_score. cbn [List.filter]. now rewrite IH.
Qed.


Lemma filter_sublist {A} (p : A -> bool) (l : list A) :
  List.filter p l `sublist_of` l.
Proof.
  induction l as [|x l IH]; cbn; [constructor|].
  destruct (p x); now constructor.
Qed.

Lemma elem_of_filter_bool {A} (p : A -> bool) (l : list A) x :
  x ∈ List.filter p l <-> x ∈ l /\ p x = true.
Proof.
  rewrite !list_elem_of_In. apply filter_In.
Qed.

(** The two filters of the tab, one after the other, keep what the one
    condition keeps. *)
Lemma filters_shown (min_score : Z) (show_shortlisted : bool)
    (results : list candidate) :
  (if show_shortlisted
   then List.filter (fun c => Bool.eqb (c_shortlisted c) true)
          (List.filter (fun c => (c_confidence_score c >=? min_score)%Z)
             results)
   else List.filter (fun c => (c_confidence_score c >=? min_score)%Z)
          results)
  = filter (shown min_score show_shortlisted) results.
Proof.
  induction results as [|c results IH].
  - now destruct show_shortlisted.
  - rewrite filter_cons. cbn [List.filter]. rewrite Z.geb_leb.
    destruct (Z.leb_spec min_score (c_confidence_score c)) as [Hle|Hlt].
    + destruct show_shortlisted.
      * cbn [List.filter]. rewrite IH.
        destruct (c_shortlisted c) eqn:Hflag; cbn [Bool.eqb].
        -- rewrite decide_True; [reflexivity|]. now split.
        -- rewrite decide_False; [reflexivity|].
           intros [_ Hshown]. specialize (Hshown eq_refl). congruence.
      * rewrite IH. rewrite decide_True; [reflexivity|]. now split.
    + rewrite decide_False by (intros [Hle _]; lia).
      now destruct show_shortlisted.
Qed.

(** X26. The rows of the tab of all candidates are exactly the entries of
    the session that pass the filters, each as often as it is stored and
    in the order of the session: those whose score is at least the
    minimum chosen and, when only the shortlisted are asked for, whose
    flag is set. No other entry is shown and none of these is left out.
    Without any result the tab shows a notice and no table. *)
Theorem all_candidates_rows_spec (results : list candidate) (min_score : Z)
    (show_shortlisted : bool) :
  match all_candidates_rows results min_score show_shortlisted with
  | None => results = []
  | Some rows =>
      results <> [] /\
      rows = filter (shown min_score show_shortlisted) results /\
      rows `sublist_of` results /\
      forall c,
        c ∈ rows <->
        c ∈ results /\ (min_score <= c_confidence_score c)%Z /\
        (show_shortlisted = true -> c_shortlisted c = true)
  end.
Proof.
  destruct results as [|c0 results]; [reflexivity|].
  unfold all_candidates_rows. cbv beta iota zeta.
  rewrite (filters_shown min_score show_shortlisted (c0 :: results)).
  split; [discriminate|]. split; [reflexivity|].
  split; [apply sublist_filter|].
  intros c. rewrite list_elem_of_filter. unfold shown. tauto.
Qed.

Lemma shortlisted_filter (t min_score : Z) (results : list candidate) :
  Forall (fun c => c_shortlisted c
                   = (c_confidence_score c >=? t)%Z) results ->
  (min_score <= t)%Z ->
  List.filter (fun c => Bool.eqb (c_shortlisted c) true)
    (List.filter (fun c => (c_confidence_score c >=? min_score)%Z) results)
  = shortlisted_rows results.
Proof.
  intros Hflags Hmin. unfold shortlisted_rows.
  induction Hflags as [|c results Hc Hflags IH]; [reflexivity|].
  cbn [List.filter]. rewrite Z.geb_leb in Hc.
  destruct (Z.leb_spec t (c_confidence_score c)) as [Hle|Hlt].
  - rewrite Hc.
    assert ((c_confidence_score c >=? min_score)%Z = true) as ->
      by (rewrite Z.geb_leb; apply Z.leb_le; lia).
    cbn [List.filter]. rewrite Hc. cbn. now rewrite IH.
  - rewrite Hc.
    destruct (c_confidence_score c >=? min_score)%Z; cbn [List.filter];
      rewrite ?Hc; cbn; exact IH.
Qed.

Section AfterABatch.
Variable PdfReader : list byte -> pdf.
Variable pdfplumber_open : list byte -> pdf.
Variable Document : list byte -> result (list pystr).
Variable decode : list byte -> result pystr.
Variable run_complete_analysis :
  nat -> pystr -> job_requirements -> analysis_outcome.
Variable now : nat -> pystr.
Variable widgets : sidebar.

(** X27. After a batch that has run to its end in a session without
    earlier results, with a minimum score that is not above the threshold
    of the batch, the tab of all candidates restricted to the
    shortlisted shows the rows of the tab of the shortlisted, and each of
    them has a score that reaches the threshold. *)
Theorem shortlisted_tabs_agree (files : list UploadedFile) (s s' : state)
    (min_score : Z) :
  analyze_all PdfReader pdfplumber_open Document decode
    run_complete_analysis now widgets files s = (Ret tt, s') ->
  all_results s = [] ->
  all_results s' <> [] ->
  (min_score <= shortlist_threshold widgets)%Z ->
  all_candidates_rows (all_results s') min_score true
    = Some (shortlisted_rows (all_results s')) /\
  Forall (fun c => (shortlist_threshold widgets <= c_confidence_score c)%Z)
         (shortlisted_rows (all_results s')).
Proof.
  intros Hrun Hempty Hne Hmin.
  destruct (analyze_all_results PdfReader pdfplumber_open Document decode
              run_complete_analysis now widgets files s s' Hrun)
    as (entries & Hres & Hflags).
  rewrite Hempty in Hres. cbn [app] in Hres. rewrite Hres in *.
  cbv beta in Hflags. split.
  - unfold all_candidates_rows.
    destruct entries as [|c0 rest]; [congruence|]. cbv beta iota zeta.
    f_equal. now apply (shortlisted_filter (shortlist_threshold widgets)).
  - apply Forall_forall. intros c Hc.
    apply elem_of_filter_bool in Hc as [Hc Hflag].
    rewrite Forall_forall in Hflags. specialize (Hflags c Hc).
    rewrite Hflag in Hflags. symmetry in Hflags.
    rewrite Z.geb_leb in Hflags. now apply Z.leb_le.
Qed.
End AfterABatch.

Example sorted_three :
  c_name <$> sorted_results three_entries
  = [lit "bob"; lit "ann"; lit "cid"; lit "dan"].
Proof. vm_compute. reflexivity. Qed.

Lemma sorted_results_by_score_witness :
  Forall (fun c => (c_confidence_score c <= 90)%Z) three_entries.
Proof.
  apply Forall_forall. intros c Hc.
  exact (proj2 (proj2 (sorted_results_by_score three_entries))
           (entry "bob" 90 true)
           [entry "ann" 70 true; entry "cid" 70 true; entry "dan" 40 false]
           eq_refl c Hc).
Defined.

Lemma shortlisted_tabs_agree_witness :
  all_candidates_rows (all_results (snd the_run)) 50 true
    = Some (shortlisted_rows (all_results (snd the_run))).
Proof.
  refine (proj1 (shortlisted_tabs_agree second_page_fails both_pages_read
                   not_a_docx decode_ascii the_analysis the_clock the_widgets
                   the_batch new_session (snd the_run) 50 _ eq_refl _ _)).
  - vm_compute. reflexivity.
  - vm_compute. discriminate.
  - vm_compute. discriminate.
Defined.

End display_facts.

